(** * The [web-tabs] element (src/lib/components/Tabs/index.js)

    A shallow embedding of the [Tabs] custom element: the one-time
    derivation of tab and panel templates from the element's children
    ([render], [tabTemplate], [panelTemplate]), the presentation
    synchronisation ([_changeTab]), the activation API ([focusTab],
    [previousTab], [nextTab]), the roving-focus keyboard handler
    ([onKeydown] and its four helpers) and the lifecycle callbacks
    ([connectedCallback], [disconnectedCallback], [firstUpdated]).

    Conventions.
    - JavaScript numbers that the component uses as indices or counters
      are integers here: [Z] for [activeTab] and [keyCode] (they can be
      negative or out of range), [N] for the 1-based counter [i] of [render].
    - [null] is [None]; a string-or-null value is an [option string].
    - A [throw] is the [Throw] completion, which carries the state reached
      when the exception left the method.
    - The results of [querySelectorAll] are lists in document order; the
      elements of a NodeList are pairwise distinct objects, so mutating
      [tabs[k]] is an update of the list at position [k]. *)

From Stdlib Require Import ZArith NArith String Ascii List Bool Lia.
From Stdlib Require Import DecimalString DecimalN.
From stdpp Require Import base option list gmap strings.

Local Open Scope string_scope.
Local Open Scope list_scope.

(** ** Completions *)

Inductive JsError : Type :=
| RangeError (message : string)
| TypeError.

Inductive Completion (S : Type) : Type :=
| Normal (s : S)
| Throw (e : JsError) (s : S).
Arguments Normal {S} s.
Arguments Throw {S} e s.

(** Sequencing of two method bodies: an exception skips the rest. *)
Definition andThen {S} (c : Completion S) (k : S -> Completion S) : Completion S :=
  match c with
  | Normal s => k s
  | Throw e s => Throw e s
  end.

(** The state a completion leaves behind, normal or not. *)
Definition stateOf {S} (c : Completion S) : S :=
  match c with
  | Normal s => s
  | Throw _ s => s
  end.

(** [xs[k]] for an integer [k]: [undefined] ([None]) outside the array. *)
Definition at_index {A} (xs : list A) (k : Z) : option A :=
  if (0 <=? k)%Z then xs !! Z.to_nat k else None.

(** ** Values built by the templates *)

(** The label a tab shows: [tabTemplate] leaves it a string or replaces it
    by the number [i]. *)
Inductive TabLabel : Type :=
| LabelString (s : string)
| LabelNumber (n : N).

(** Number-to-string conversion of a non-negative integer (decimal). *)
Definition numberToString (n : N) : string :=
  NilEmpty.string_of_uint (N.to_uint n).

(** Strings made of decimal digits only, and strings without a dash: the
    two shapes that matter when ids are taken apart again. *)
Definition isDigit (c : ascii) : bool :=
  (48 <=? nat_of_ascii c)%nat && (nat_of_ascii c <=? 57)%nat.

Fixpoint digitsOnly (s : string) : bool :=
  match s with
  | EmptyString => true
  | String c s => isDigit c && digitsOnly s
  end.

Fixpoint dashFree (s : string) : bool :=
  match s with
  | EmptyString => true
  | String c s => negb (Ascii.eqb c "-") && dashFree s
  end.

(** String conversion of an interpolated [${tabLabel}]. *)
Definition labelToString (l : TabLabel) : string :=
  match l with
  | LabelString s => s
  | LabelNumber n => numberToString n
  end.

(** The [switch (tabLabel)] of [tabTemplate]; [tabLabel] is what
    [getAttribute("data-label")] returned, a string or [null]. *)
Definition resolveLabel (i : N) (tabLabel : option string) : TabLabel :=
  match tabLabel with
  | None => LabelNumber i
  | Some s =>
      if String.eqb s "question" then LabelString ("Question " +:+ numberToString i)
      else if String.eqb s "sample" then LabelString ("Sample " +:+ numberToString i)
      else if String.eqb s "" then LabelNumber i
      else if String.eqb s "bare" then LabelNumber i
      else LabelString s
  end.

(** A child element of the host: its identity and its [data-label]. *)
Record Child : Type := mkChild {
  child_node : nat;
  child_data_label : option string
}.

(** The [<button>] produced by [tabTemplate], attribute by attribute. *)
Record TabTemplate : Type := mkTabTemplate {
  tab_class : string;
  tab_role : string;
  tab_aria_selected : string;
  tab_id : string;
  tab_aria_controls : string;
  tab_tabindex : string;
  tab_data_category : string;
  tab_data_label : string;
  tab_text : TabLabel
}.

(** The [<div>] produced by [panelTemplate]. *)
Record PanelTemplate : Type := mkPanelTemplate {
  panel_id : string;
  panel_class : string;
  panel_role : string;
  panel_aria_labelledby : string;
  panel_hidden_attr : bool;
  panel_content : Child
}.

Definition tabTemplate (idSalt : string) (i : N) (tabLabel : option string)
  : TabTemplate :=
  let tabLabel := resolveLabel i tabLabel in
  {| tab_class := "web-tabs__tab gc-analytics-event";
     tab_role := "tab";
     tab_aria_selected := "false";
     tab_id := "web-tab-" +:+ idSalt +:+ "-" +:+ numberToString i;
     tab_aria_controls := "web-tab-" +:+ idSalt +:+ "-" +:+ numberToString i +:+ "-panel";
     tab_tabindex := "-1";
     tab_data_category := "Site-Wide Custom Events";
     tab_data_label := "tab, " +:+ labelToString tabLabel;
     tab_text := tabLabel |}.

Definition panelTemplate (idSalt : string) (i : N) (child : Child)
  : PanelTemplate :=
  {| panel_id := "web-tab-" +:+ idSalt +:+ "-" +:+ numberToString i +:+ "-panel";
     panel_class := "web-tabs__panel";
     panel_role := "tabpanel";
     panel_aria_labelledby := "web-tab-" +:+ idSalt +:+ "-" +:+ numberToString i;
     panel_hidden_attr := true;
     panel_content := child |}.

(** ** The component and its surroundings *)

(** DOM nodes are identified by a number. *)
Definition Node : Type := nat.

(** An element as far as the component reads and writes it: its content
    attributes. The [hidden] property reflects the [hidden] attribute. *)
Abbreviation Element := (gmap string string).

Definition setAttribute (name value : string) (el : Element) : Element :=
  <[name := value]> el.

Definition removeAttribute (name : string) (el : Element) : Element :=
  delete name el.

Definition getAttribute (name : string) (el : Element) : option string :=
  el !! name.

Definition hidden (el : Element) : bool :=
  bool_decide (is_Some (el !! "hidden")).

Definition set_hidden (b : bool) (el : Element) : Element :=
  if b then setAttribute "hidden" "" el else removeAttribute "hidden" el.

(** The methods bound in the constructor that are handed out as listeners. *)
Inductive Method : Type :=
| M_onResize
| M_nextTab.

Global Instance Method_eq_dec : EqDecision Method.
Proof. solve_decision. Defined.

(** A bound method [this.m] of the instance numbered [owner]. *)
Record Listener : Type := mkListener {
  owner : nat;
  method : Method
}.

Global Instance Listener_eq_dec : EqDecision Listener.
Proof. solve_decision. Defined.

(** An event listener list: entries are (event type, callback). *)
Abbreviation ListenerList := (list (string * Listener)).

(** [addEventListener]: an entry already in the list is not added again. *)
Definition addEventListener (type : string) (l : Listener) (ls : ListenerList)
  : ListenerList :=
  if decide ((type, l) ∈ ls) then ls else ls ++ [(type, l)].

(** [removeEventListener]: the matching entry leaves the list (a list built
    by [addEventListener] holds it at most once). *)
Definition removeEventListener (type : string) (l : Listener) (ls : ListenerList)
  : ListenerList :=
  filter (λ x, x ≠ (type, l)) ls.

(** The fields of a [Tabs] instance. [self] stands for the identity of the
    object, which is what tells its bound methods from another instance's. *)
Record Tabs : Type := mkTabs {
  self : nat;
  label : option string;
  activeTab : Z;
  overflow : bool;
  prerenderedChildren : option (list PanelTemplate);
  tabs : option (list TabTemplate);
  idSalt : string
}.

(** The host element: [children], [classList] and what its selectors find,
    in document order. [tabButtons] are the nodes that
    [querySelectorAll(".web-tabs__tab")] returns and [tabElements] their
    attributes, position by position; the tab buttons are the elements
    that carry the component's [@focus] and [@keydown] listeners.
    [questions] holds the listener list of every [web-question]
    descendant. *)
Record Host : Type := mkHost {
  children : list Child;
  classList : list string;
  tablist : option Node;
  tabButtons : list Node;
  tabElements : list Element;
  panelElements : list Element;
  questions : list ListenerList
}.

(** The page around it: the listeners of [window], the focused element
    and the element tree the focus helpers walk. *)
Record Page : Type := mkPage {
  windowListeners : ListenerList;
  activeElement : Node;
  parentElement : Node -> option Node;
  elementChildren : Node -> list Node
}.

Record State : Type := mkState {
  this : Tabs;
  host : Host;
  page : Page
}.

(** Field updates. *)
Definition set_activeTab (v : Z) (s : State) : State :=
  let t := this s in
  mkState (mkTabs (self t) (label t) v (overflow t) (prerenderedChildren t)
             (tabs t) (idSalt t))
          (host s) (page s).

Definition set_overflow (v : bool) (s : State) : State :=
  let t := this s in
  mkState (mkTabs (self t) (label t) (activeTab t) v (prerenderedChildren t)
             (tabs t) (idSalt t))
          (host s) (page s).

Definition set_templates (ps : list PanelTemplate) (ts : list TabTemplate)
    (s : State) : State :=
  let t := this s in
  mkState (mkTabs (self t) (label t) (activeTab t) (overflow t) (Some ps)
             (Some ts) (idSalt t))
          (host s) (page s).

Definition set_classList (v : list string) (s : State) : State :=
  let h := host s in
  mkState (this s)
          (mkHost (children h) v (tablist h) (tabButtons h) (tabElements h)
             (panelElements h)
             (questions h))
          (page s).

Definition set_tabElements (v : list Element) (s : State) : State :=
  let h := host s in
  mkState (this s)
          (mkHost (children h) (classList h) (tablist h) (tabButtons h) v
             (panelElements h)
             (questions h))
          (page s).

Definition set_panelElements (v : list Element) (s : State) : State :=
  let h := host s in
  mkState (this s)
          (mkHost (children h) (classList h) (tablist h) (tabButtons h)
             (tabElements h) v
             (questions h))
          (page s).

Definition set_questions (v : list ListenerList) (s : State) : State :=
  let h := host s in
  mkState (this s)
          (mkHost (children h) (classList h) (tablist h) (tabButtons h)
             (tabElements h) (panelElements h) v)
          (page s).

Definition set_windowListeners (v : ListenerList) (s : State) : State :=
  let p := page s in
  mkState (this s) (host s)
          (mkPage v (activeElement p) (parentElement p) (elementChildren p)).

Definition set_activeElement (v : Node) (s : State) : State :=
  let p := page s in
  mkState (this s) (host s)
          (mkPage (windowListeners p) v (parentElement p) (elementChildren p)).

(** ** Derivation pass: [render] *)

(** The [for (const child of this.children)] loop, with its counter [i]
    and the two arrays it pushes to. *)
Fixpoint render_loop (salt : string) (cs : list Child) (i : N)
    (ps : list PanelTemplate) (ts : list TabTemplate)
  : list PanelTemplate * list TabTemplate :=
  match cs with
  | [] => (ps, ts)
  | child :: rest =>
      let ps := ps ++ [panelTemplate salt i child] in
      let tabLabel := child_data_label child in
      let ts := ts ++ [tabTemplate salt i tabLabel] in
      render_loop salt rest (N.succ i) ps ts
  end.

(** The body of the [if (!this.prerenderedChildren)] branch. *)
Definition derive (salt : string) (cs : list Child)
  : list PanelTemplate * list TabTemplate :=
  render_loop salt cs 1%N [] [].

(** What the [html] template of [render] interpolates. *)
Record TemplateResult : Type := mkTemplateResult {
  tr_aria_label : option string;
  tr_tabs : option (list TabTemplate);
  tr_panels : option (list PanelTemplate)
}.

(** [render]. An array, even an empty one, is truthy: only [null] passes
    the guard. *)
Definition render (s : State) : State * TemplateResult :=
  let s :=
    match prerenderedChildren (this s) with
    | None =>
        let '(ps, ts) := derive (idSalt (this s)) (children (host s)) in
        set_templates ps ts s
    | Some _ => s
    end in
  (s, {| tr_aria_label := label (this s);
         tr_tabs := tabs (this s);
         tr_panels := prerenderedChildren (this s) |}).

(** All ids a derivation puts into the document. *)
Definition idsOf (d : list PanelTemplate * list TabTemplate) : list string :=
  (tab_id <$> snd d) ++ (panel_id <$> fst d).

(** ** Presentation sync: [_changeTab] and [updated] *)

(** [_changeTab]. [activeTab] is looked up before the guard; using it when
    it is [undefined] is a [TypeError], raised after the first loop has
    already run. *)
Definition _changeTab (s : State) : Completion State :=
  let tabs := tabElements (host s) in
  let panels := panelElements (host s) in
  let activeTab_el := at_index tabs (activeTab (this s)) in
  match at_index panels (activeTab (this s)) with
  | None => Normal s
  | Some _ =>
      let tabs :=
        (λ tab, setAttribute "tabindex" "-1"
                  (setAttribute "aria-selected" "false" tab)) <$> tabs in
      match activeTab_el with
      | None => Throw TypeError (set_tabElements tabs s)
      | Some _ =>
          let k := Z.to_nat (activeTab (this s)) in
          let tabs :=
            alter (λ tab, removeAttribute "tabindex"
                            (setAttribute "aria-selected" "true" tab)) k tabs in
          let panels := set_hidden true <$> panels in
          let panels := alter (set_hidden false) k panels in
          Normal (set_panelElements panels (set_tabElements tabs s))
      end
  end.

(** [updated(changedProperties)]: the host framework passes the names of
    the properties that changed. *)
Definition updated (changedProperties : gset string) (s : State)
  : Completion State :=
  if decide ("activeTab" ∈ changedProperties) then _changeTab s else Normal s.

(** ** Activation: [focusTab], [previousTab], [nextTab] *)

Definition focusTab (index : Z) (s : State) : Completion State :=
  let tabs := tabElements (host s) in
  match at_index tabs index with
  | None => Throw (RangeError "There is no tab at the specified index.") s
  | Some _ => Normal (set_activeTab index s)
  end.

Definition previousTab (s : State) : Completion State :=
  focusTab (activeTab (this s) - 1) s.

Definition nextTab (s : State) : Completion State :=
  focusTab (activeTab (this s) + 1) s.

(** ** Keyboard: [onKeydown] and the focus helpers *)

Record KeyboardEvent : Type := mkKeyboardEvent {
  keyCode : Z;
  defaultPrevented : bool
}.

Definition preventDefault (e : KeyboardEvent) : KeyboardEvent :=
  {| keyCode := keyCode e; defaultPrevented := true |}.

Definition KEYCODE_END : Z := 35.
Definition KEYCODE_HOME : Z := 36.
Definition KEYCODE_LEFT : Z := 37.
Definition KEYCODE_RIGHT : Z := 39.

(** Position of a node among its siblings. *)
Fixpoint indexOf (x : Node) (l : list Node) : option nat :=
  match l with
  | [] => None
  | y :: l => if decide (y = x) then Some 0 else S <$> indexOf x l
  end.

Definition nextElementSibling (p : Page) (item : Node) : option Node :=
  match parentElement p item with
  | None => None
  | Some parent =>
      let siblings := elementChildren p parent in
      match indexOf item siblings with
      | None => None
      | Some k => siblings !! S k
      end
  end.

Definition previousElementSibling (p : Page) (item : Node) : option Node :=
  match parentElement p item with
  | None => None
  | Some parent =>
      let siblings := elementChildren p parent in
      match indexOf item siblings with
      | None | Some 0 => None
      | Some (S k) => siblings !! k
      end
  end.

(** [onFocus(e)]. [currentTarget] is the element the listener sits on and
    [tabNodes] are the nodes [querySelectorAll(".web-tabs__tab")] returns,
    position by position the elements of [tabElements]; [indexOf] yields
    -1 for a node that is not among them. [scrollIntoView] moves the
    viewport only and touches nothing of the state. *)
Definition onFocus (tabNodes : list Node) (currentTarget : Node) (s : State)
  : State :=
  let tab := currentTarget in
  let index :=
    match indexOf tab tabNodes with
    | Some k => Z.of_nat k
    | None => (-1)%Z
    end in
  set_activeTab index s.

(** [el.focus()]: [el] becomes [document.activeElement] and, unless it
    had the focus already, the browser sends it a focus event before
    [focus()] returns. The tab buttons carry the [@focus] listener of
    [tabTemplate], so for them [onFocus] runs with [el] as
    [currentTarget]. The update that the assignment to [activeTab]
    requests is run by the host later, not inside [focus()]. *)
Definition focus (el : Node) (s : State) : State :=
  let focused := set_activeElement el s in
  if decide (el = activeElement (page s)) then focused
  else if decide (el ∈ tabButtons (host s))
       then onFocus (tabButtons (host s)) el focused
       else focused.

Definition focusFirstItem (s : State) : Completion State :=
  let item := activeElement (page s) in
  match parentElement (page s) item with
  | None => Throw TypeError s
  | Some parent =>
      match head (elementChildren (page s) parent) with
      | None => Throw TypeError s
      | Some first => Normal (focus first s)
      end
  end.

Definition focusLastItem (s : State) : Completion State :=
  let item := activeElement (page s) in
  match parentElement (page s) item with
  | None => Throw TypeError s
  | Some parent =>
      match last (elementChildren (page s) parent) with
      | None => Throw TypeError s
      | Some final => Normal (focus final s)
      end
  end.

Definition focusNextItem (s : State) : Completion State :=
  let item := activeElement (page s) in
  match nextElementSibling (page s) item with
  | Some next => Normal (focus next s)
  | None => focusFirstItem s
  end.

Definition focusPreviousItem (s : State) : Completion State :=
  let item := activeElement (page s) in
  match previousElementSibling (page s) item with
  | Some prev => Normal (focus prev s)
  | None => focusLastItem s
  end.

(** [onKeydown(e)]: the event as the handler leaves it, and the completion
    of the handler. The [switch] has no [default]. *)
Definition onKeydown (e : KeyboardEvent) (s : State)
  : KeyboardEvent * Completion State :=
  if (keyCode e =? KEYCODE_RIGHT)%Z then (preventDefault e, focusNextItem s)
  else if (keyCode e =? KEYCODE_LEFT)%Z then (preventDefault e, focusPreviousItem s)
  else if (keyCode e =? KEYCODE_HOME)%Z then (preventDefault e, focusFirstItem s)
  else if (keyCode e =? KEYCODE_END)%Z then (preventDefault e, focusLastItem s)
  else (e, Normal s).

(** A keydown that completes normally with the default action suppressed
    and the focus on [x], the host element as before. The handler itself
    assigns nothing to the instance: the state is the given one with the
    focus on [x], or, when the focus has moved, what [onFocus] for [x]
    makes of that. *)
Definition keydownMovesFocusTo (e : KeyboardEvent) (s : State) (x : Node) : Prop :=
  ∃ e' s',
    onKeydown e s = (e', Normal s')
    ∧ defaultPrevented e' = true
    ∧ activeElement (page s') = x
    ∧ host s' = host s
    ∧ (s' = set_activeElement x s
       ∨ (x ≠ activeElement (page s)
          ∧ s' = onFocus (tabButtons (host s)) x (set_activeElement x s))).

(** ** Lifecycle *)

(** The [super] calls of the two callbacks belong to the base class and
    touch nothing of this state. *)
Definition connectedCallback (s : State) : State :=
  set_windowListeners
    (addEventListener "resize" (mkListener (self (this s)) M_onResize)
       (windowListeners (page s))) s.

Definition disconnectedCallback (s : State) : State :=
  set_windowListeners
    (removeEventListener "resize" (mkListener (self (this s)) M_onResize)
       (windowListeners (page s))) s.

Section Overflow.

(** [checkOverflow] from utils/handle-overflow: a query on the tab list
    element, taken as given. *)
Variable checkOverflow : option Node -> string -> bool.

Definition onResize (s : State) : State :=
  let tabs := tablist (host s) in
  set_overflow (checkOverflow tabs "width") s.

(** [firstUpdated]. A NodeList is truthy, so the early [return] is never
    taken. *)
Definition firstUpdated (s : State) : State :=
  let s := set_activeTab 0 s in
  let s := set_classList (filter (λ c, c ≠ "unresolved") (classList (host s))) s in
  let s := onResize s in
  let nextTab_l := mkListener (self (this s)) M_nextTab in
  set_questions
    (addEventListener "request-nav-to-next" nextTab_l <$> questions (host s)) s.

End Overflow.

(** Every listener entry of instance [inst] still registered somewhere:
    on [window] or on a [web-question] descendant. *)
Definition listenersOf (inst : nat) (s : State) : ListenerList :=
  filter (λ x, owner (snd x) = inst)
    (windowListeners (page s) ++ concat (questions (host s))).

(** A full release: attached, first updated and detached again, the
    instance has no listener entry left anywhere. *)
Definition releasesEverything (checkOverflow : option Node -> string -> bool)
    (s : State) : Prop :=
  listenersOf (self (this s))
    (disconnectedCallback (firstUpdated checkOverflow (connectedCallback s))) = [].

(** The instance's entries on [window] alone. *)
Definition windowListenersOf (inst : nat) (s : State) : ListenerList :=
  filter (λ x, owner (snd x) = inst) (windowListeners (page s)).

(** [n] calls of a method in a row; the first exception ends the run. *)
Fixpoint times (n : nat) (m : State -> Completion State) (s : State)
  : Completion State :=
  match n with
  | 0 => Normal s
  | S n => andThen (m s) (times n m)
  end.

(** ** Construction and a sample page *)

(** The constructor; [salt] is what [generateIdSalt("web-tab-")] returned
    and [id] the identity of the new object. *)
Definition new_Tabs (id : nat) (salt : string) : Tabs :=
  {| self := id;
     label := None;
     activeTab := 0;
     overflow := false;
     prerenderedChildren := None;
     tabs := None;
     idSalt := salt |}.

(** The elements the rendering engine creates from the templates. *)
Definition tabElementOf (t : TabTemplate) : Element :=
  setAttribute "data-label" (tab_data_label t)
    (setAttribute "data-category" (tab_data_category t)
       (setAttribute "tabindex" (tab_tabindex t)
          (setAttribute "aria-controls" (tab_aria_controls t)
             (setAttribute "id" (tab_id t)
                (setAttribute "aria-selected" (tab_aria_selected t)
                   (setAttribute "role" (tab_role t)
                      (setAttribute "class" (tab_class t) ∅))))))).

Definition panelElementOf (p : PanelTemplate) : Element :=
  set_hidden (panel_hidden_attr p)
    (setAttribute "aria-labelledby" (panel_aria_labelledby p)
       (setAttribute "role" (panel_role p)
          (setAttribute "class" (panel_class p)
             (setAttribute "id" (panel_id p) ∅)))).

(** A page holding one [web-tabs] element with three children, the second
    of which contains a [web-question]. Node 100 is the tab list and nodes
    1, 2, 3 are its tab buttons; node 2 has the focus. *)
Definition sample_children : list Child :=
  [mkChild 10 (Some "question"); mkChild 11 (Some ""); mkChild 12 (Some "Custom")].

Definition sample_page : Page :=
  {| windowListeners := [];
     activeElement := 2;
     parentElement := λ n, if decide (n ∈ [1; 2; 3]) then Some 100 else None;
     elementChildren := λ n, if decide (n = 100) then [1; 2; 3] else [] |}.

(** The sample page before the first render. *)
Definition sample_fresh : State :=
  {| this := new_Tabs 1 "k3x";
     host := {| children := sample_children;
                classList := ["unresolved"];
                tablist := None;
                tabButtons := [];
                tabElements := [];
                panelElements := [];
                questions := [[]] |};
     page := sample_page |}.

(** The sample page once the first render is in the document. *)
Definition sample_rendered : State :=
  let s := fst (render sample_fresh) in
  {| this := this s;
     host := {| children := sample_children;
                classList := ["unresolved"];
                tablist := Some 100;
                tabButtons := [1; 2; 3];
                tabElements := tabElementOf <$> default [] (tabs (this s));
                panelElements :=
                  panelElementOf <$> default [] (prerenderedChildren (this s));
                questions := [[]] |};
     page := sample_page |}.

(** * Properties *)

(** ** Label resolution *)

Example label_question_3 :
  resolveLabel 3 (Some "question") = LabelString "Question 3".
Proof. reflexivity. Qed.

Example label_sample_2 :
  resolveLabel 2 (Some "sample") = LabelString "Sample 2".
Proof. reflexivity. Qed.

Example label_bare_5 :
  resolveLabel 5 (Some "") = LabelNumber 5
  ∧ resolveLabel 5 None = LabelNumber 5
  ∧ resolveLabel 5 (Some "bare") = LabelNumber 5.
Proof. repeat split. Qed.

Example label_data_attribute :
  tab_data_label (tabTemplate "s" 12 (Some "question")) = "tab, Question 12"
  ∧ tab_data_label (tabTemplate "s" 12 None) = "tab, 12".
Proof. split; reflexivity. Qed.

Lemma eqb_neq_false (s t : string) : s ≠ t → String.eqb s t = false.
Proof. intros H. by apply String.eqb_neq. Qed.

(** C3. Label resolution is a function of the declared label and the
    1-based index [i] alone: ["question"] gives ["Question " + i],
    ["sample"] gives ["Sample " + i]; the empty string, [null] and
    ["bare"] give the number [i]; every other string is kept as it is,
    whatever the index. *)
Theorem label_resolution (i : N) (declared : option string) :
  (declared = Some "question" →
     resolveLabel i declared = LabelString ("Question " +:+ numberToString i))
  ∧ (declared = Some "sample" →
     resolveLabel i declared = LabelString ("Sample " +:+ numberToString i))
  ∧ (declared = Some "" ∨ declared = None ∨ declared = Some "bare" →
     resolveLabel i declared = LabelNumber i)
  ∧ (∀ s, declared = Some s →
       s ≠ "question" → s ≠ "sample" → s ≠ "" → s ≠ "bare" →
       resolveLabel i declared = LabelString s).
Proof.
  repeat split.
  - by intros ->.
  - by intros ->.
  - by intros [-> | [-> | ->]].
  - intros s -> H1 H2 H3 H4. unfold resolveLabel.
    by rewrite !eqb_neq_false.
Qed.

Lemma label_resolution_witness :
  resolveLabel 4 (Some "Overview") = LabelString "Overview".
Proof.
  apply (proj2 (proj2 (proj2 (label_resolution 4 (Some "Overview")))) "Overview");
    [reflexivity | discriminate..].
Defined.

(** ** Ids *)

Lemma digitsOnly_uint (d : Decimal.uint) :
  digitsOnly (NilEmpty.string_of_uint d) = true.
Proof. induction d; simpl; auto. Qed.

Lemma digitsOnly_numberToString (n : N) : digitsOnly (numberToString n) = true.
Proof. apply digitsOnly_uint. Qed.

Lemma digitsOnly_dashFree (s : string) : digitsOnly s = true → dashFree s = true.
Proof.
  induction s as [|c s IH]; simpl; [done|].
  intros [Hc Hs]%andb_prop. rewrite IH by done.
  destruct (Ascii.eqb_spec c "-") as [->|]; [discriminate Hc | done].
Qed.

Lemma app_nil (t : string) : "" +:+ t = t.
Proof. reflexivity. Qed.

Lemma app_cons (c : ascii) (s t : string) : String c s +:+ t = String c (s +:+ t).
Proof. reflexivity. Qed.

Lemma dashFree_app_dash (s t : string) : dashFree (s +:+ "-" +:+ t) = false.
Proof.
  induction s as [|c s IH]; [done|].
  rewrite (app_cons c s). simpl. rewrite IH. apply andb_false_r.
Qed.

Lemma string_app_assoc (s t u : string) : (s +:+ t) +:+ u = s +:+ t +:+ u.
Proof.
  induction s as [|c s IH]; [done|]. rewrite !(app_cons c). by rewrite IH.
Qed.

(** A string is cut at its last dash in one way only. *)
Lemma split_last_dash (s1 s2 d1 d2 : string) :
  dashFree d1 = true → dashFree d2 = true →
  s1 +:+ "-" +:+ d1 = s2 +:+ "-" +:+ d2 → s1 = s2 ∧ d1 = d2.
Proof.
  intros H1 H2. revert s2.
  induction s1 as [|c s1 IH]; intros [|c' s2] Heq.
  - change (String "-" d1 = String "-" d2) in Heq. by injection Heq.
  - change (String "-" d1 = String c' (s2 +:+ "-" +:+ d2)) in Heq.
    injection Heq as _ ->. by rewrite dashFree_app_dash in H1.
  - change (String c (s1 +:+ "-" +:+ d1) = String "-" d2) in Heq.
    injection Heq as _ <-. by rewrite dashFree_app_dash in H2.
  - rewrite (app_cons c s1), (app_cons c' s2) in Heq.
    injection Heq as -> Heq. destruct (IH _ Heq) as [-> ->]. done.
Qed.

(** The fixed prefix of every id can be dropped from an equation. *)
Lemma id_prefix_inj (x y : string) : "web-tab-" +:+ x = "web-tab-" +:+ y → x = y.
Proof. apply (inj (String.append "web-tab-")). Qed.

(** The id of a tab determines the salt. *)
Lemma tab_id_salt (salt1 salt2 : string) (i j : N) c1 c2 :
  tab_id (tabTemplate salt1 i c1) = tab_id (tabTemplate salt2 j c2) →
  salt1 = salt2.
Proof.
  simpl. intros Heq%id_prefix_inj.
  apply split_last_dash in Heq as [? _];
    auto using digitsOnly_dashFree, digitsOnly_numberToString.
Qed.

(** So does the id of a panel. *)
Lemma panel_id_salt (salt1 salt2 : string) (i j : N) c1 c2 :
  panel_id (panelTemplate salt1 i c1) = panel_id (panelTemplate salt2 j c2) →
  salt1 = salt2.
Proof.
  simpl. intros Heq%id_prefix_inj.
  change "-panel" with ("-" +:+ "panel") in Heq.
  rewrite <- !(string_app_assoc _ "-" (numberToString _ +:+ _)) in Heq.
  rewrite <- !(string_app_assoc _ (numberToString _) _) in Heq.
  apply split_last_dash in Heq as [Heq _]; [|done..].
  rewrite !string_app_assoc in Heq.
  apply split_last_dash in Heq as [? _];
    auto using digitsOnly_dashFree, digitsOnly_numberToString.
Qed.

(** A tab id ends in a digit and a panel id in ["-panel"]: never equal. *)
Lemma tab_id_not_panel_id (salt1 salt2 : string) (i j : N) c1 c2 :
  tab_id (tabTemplate salt1 i c1) ≠ panel_id (panelTemplate salt2 j c2).
Proof.
  simpl. intros Heq%id_prefix_inj.
  change "-panel" with ("-" +:+ "panel") in Heq.
  rewrite <- !(string_app_assoc _ "-" (numberToString _ +:+ _)) in Heq.
  rewrite <- !(string_app_assoc _ (numberToString _) _) in Heq.
  apply split_last_dash in Heq as [_ Heq];
    [| auto using digitsOnly_dashFree, digitsOnly_numberToString | done].
  pose proof (digitsOnly_numberToString i) as Hd.
  rewrite Heq in Hd. discriminate Hd.
Qed.

(** ** Derivation *)

(** The loop appends, for the child at position [k], the templates
    numbered [i + k]. *)
Lemma render_loop_spec (salt : string) (cs : list Child) :
  ∀ (i : N) (ps : list PanelTemplate) (ts : list TabTemplate),
    render_loop salt cs i ps ts =
    (ps ++ imap (λ k c, panelTemplate salt (i + N.of_nat k) c) cs,
     ts ++ imap (λ k c, tabTemplate salt (i + N.of_nat k) (child_data_label c)) cs).
Proof.
  induction cs as [|child rest IH]; intros i ps ts; simpl.
  - by rewrite !app_nil_r.
  - rewrite IH, <- !app_assoc. simpl. rewrite N.add_0_r.
    do 3 f_equal; apply imap_ext; intros k c _; simpl; f_equal; lia.
Qed.

Lemma derive_spec (salt : string) (cs : list Child) :
  derive salt cs =
  (imap (λ k c, panelTemplate salt (N.of_nat (S k)) c) cs,
   imap (λ k c, tabTemplate salt (N.of_nat (S k)) (child_data_label c)) cs).
Proof.
  unfold derive. rewrite render_loop_spec. simpl.
  f_equal; apply imap_ext; intros k c _; f_equal; lia.
Qed.

(** One panel and one tab per child. *)
Lemma derive_length (salt : string) (cs : list Child) :
  length (fst (derive salt cs)) = length cs
  ∧ length (snd (derive salt cs)) = length cs.
Proof. rewrite derive_spec. simpl. by rewrite !length_imap. Qed.

(** Every id of a derivation is a tab id or a panel id built from its salt. *)
Lemma idsOf_shape (salt : string) (cs : list Child) (x : string) :
  x ∈ idsOf (derive salt cs) →
  ∃ i c, x = tab_id (tabTemplate salt i (child_data_label c))
         ∨ x = panel_id (panelTemplate salt i c).
Proof.
  unfold idsOf. rewrite derive_spec. simpl.
  intros [Hx | Hx]%elem_of_app;
    apply list_elem_of_fmap in Hx as (t & -> & Ht);
    apply elem_of_lookup_imap in Ht as (k & c & -> & _);
    exists (N.of_nat (S k)), c; auto.
Qed.

(** C6. Deriving from [n] children gives [n] tabs and [n] panels in child
    order; the tab and the panel at the same position [i] (1-based) carry
    the ids ["web-tab-<salt>-<i>"] and ["web-tab-<salt>-<i>-panel"], the
    tab's [aria-controls] is the panel's id and the panel's
    [aria-labelledby] is the tab's id; and no id of a derivation under one
    salt is an id of a derivation under a different salt. *)
Theorem derive_pairs (salt : string) (cs : list Child) :
  let d := derive salt cs in
  length (snd d) = length cs
  ∧ length (fst d) = length cs
  ∧ (∀ k child, cs !! k = Some child →
       ∃ tab panel,
         snd d !! k = Some tab ∧ fst d !! k = Some panel
         ∧ panel_content panel = child
         ∧ tab_text tab = resolveLabel (N.of_nat (S k)) (child_data_label child)
         ∧ tab_id tab
           = "web-tab-" +:+ salt +:+ "-" +:+ numberToString (N.of_nat (S k))
         ∧ panel_id panel
           = "web-tab-" +:+ salt +:+ "-" +:+ numberToString (N.of_nat (S k))
               +:+ "-panel"
         ∧ tab_aria_controls tab = panel_id panel
         ∧ panel_aria_labelledby panel = tab_id tab)
  ∧ (∀ salt' cs' x,
       salt ≠ salt' → x ∈ idsOf d → x ∉ idsOf (derive salt' cs')).
Proof.
  intros d. subst d. split; [|split; [|split]].
  - apply derive_length.
  - apply derive_length.
  - intros k child Hk. rewrite derive_spec. simpl.
    eexists _, _. rewrite !list_lookup_imap, Hk. simpl.
    repeat split.
  - intros salt' cs' x Hne Hx Hx'.
    apply idsOf_shape in Hx as (i & c & Hx).
    apply idsOf_shape in Hx' as (j & c' & Hx').
    destruct Hx as [-> | ->], Hx' as [Hx' | Hx'].
    + by apply tab_id_salt in Hx'.
    + by apply tab_id_not_panel_id in Hx'.
    + symmetry in Hx'. by apply tab_id_not_panel_id in Hx'.
    + by apply panel_id_salt in Hx'.
Qed.

Lemma derive_pairs_witness :
  "web-tab-ab-1" ∉ idsOf (derive "cd" [mkChild 0 None; mkChild 1 (Some "sample")]).
Proof.
  apply (proj2 (proj2 (proj2 (derive_pairs "ab" [mkChild 7 (Some "question")])))).
  - discriminate.
  - vm_compute. apply list_elem_of_here.
Defined.

Example sample_labels :
  tab_text <$> default [] (tabs (this sample_rendered))
  = [LabelString "Question 1"; LabelNumber 2; LabelString "Custom"].
Proof. reflexivity. Qed.

(** With the cache filled, [render] changes nothing and interpolates the
    cached arrays. *)
Lemma render_cached (s : State) (ps : list PanelTemplate) :
  prerenderedChildren (this s) = Some ps →
  render s = (s, {| tr_aria_label := label (this s);
                    tr_tabs := tabs (this s);
                    tr_panels := Some ps |}).
Proof. intros H. unfold render. rewrite H. simpl. by rewrite H. Qed.

(** With the cache empty, [render] derives the templates and stores them. *)
Lemma render_first (s : State) :
  prerenderedChildren (this s) = None →
  render s =
  (set_templates (fst (derive (idSalt (this s)) (children (host s))))
     (snd (derive (idSalt (this s)) (children (host s)))) s,
   {| tr_aria_label := label (this s);
      tr_tabs := Some (snd (derive (idSalt (this s)) (children (host s))));
      tr_panels := Some (fst (derive (idSalt (this s)) (children (host s)))) |}).
Proof.
  intros H. unfold render. rewrite H.
  by destruct (derive (idSalt (this s)) (children (host s))).
Qed.

(** C5. Once the first [render] has derived the templates from the [n]
    children, another [render] returns the same state and the same
    output: the cached arrays, still of length [n], are reused (also when
    the children have changed meanwhile), and neither call touches
    [activeTab], [overflow] or anything outside the instance's cache. *)
Theorem render_idempotent (s : State) :
  prerenderedChildren (this s) = None →
  let n := length (children (host s)) in
  let s1 := fst (render s) in
  let out1 := snd (render s) in
  (∃ ps ts,
      prerenderedChildren (this s1) = Some ps ∧ tabs (this s1) = Some ts
      ∧ length ps = n ∧ length ts = n
      ∧ tr_panels out1 = Some ps ∧ tr_tabs out1 = Some ts)
  ∧ render s1 = (s1, out1)
  ∧ (∀ h, render (mkState (this s1) h (page s1))
          = (mkState (this s1) h (page s1), out1))
  ∧ activeTab (this s1) = activeTab (this s)
  ∧ overflow (this s1) = overflow (this s)
  ∧ idSalt (this s1) = idSalt (this s)
  ∧ host s1 = host s
  ∧ page s1 = page s.
Proof.
  intros Hnone n s1 out1. subst n s1 out1.
  pose proof (derive_length (idSalt (this s)) (children (host s))) as (Hps & Hts).
  rewrite (render_first s Hnone). simpl.
  split; [|split; [|split]].
  - by eexists _, _.
  - by erewrite render_cached.
  - intros h. by erewrite render_cached.
  - done.
Qed.

Lemma render_idempotent_witness :
  render (fst (render sample_fresh))
  = (fst (render sample_fresh), snd (render sample_fresh)).
Proof.
  apply (proj1 (proj2 (render_idempotent sample_fresh eq_refl))).
Defined.

(** ** Array indexing and attributes *)

Lemma at_index_Some {A} (xs : list A) (k : Z) (x : A) :
  at_index xs k = Some x ↔ (0 ≤ k)%Z ∧ xs !! Z.to_nat k = Some x.
Proof.
  unfold at_index. destruct (Z.leb_spec 0 k) as [Hk|Hk].
  - by split; [intros ? | intros [_ ?]].
  - split; [done | lia].
Qed.

Lemma at_index_is_Some {A} (xs : list A) (k : Z) :
  is_Some (at_index xs k) ↔ (0 ≤ k < Z.of_nat (length xs))%Z.
Proof.
  unfold at_index. destruct (Z.leb_spec 0 k).
  - rewrite lookup_lt_is_Some. lia.
  - split; [by intros [? ?] | lia].
Qed.

Lemma at_index_None {A} (xs : list A) (k : Z) :
  at_index xs k = None ↔ ¬ (0 ≤ k < Z.of_nat (length xs))%Z.
Proof. rewrite <- at_index_is_Some, eq_None_not_Some. done. Qed.

Lemma hidden_set_hidden (b : bool) (el : Element) : hidden (set_hidden b el) = b.
Proof.
  unfold hidden, set_hidden, setAttribute, removeAttribute. destruct b.
  - rewrite lookup_insert_eq. by apply bool_decide_eq_true_2.
  - rewrite lookup_delete_eq. apply bool_decide_eq_false_2. by intros [? ?].
Qed.

(** A list in which a property holds at position [i] and nowhere else has
    exactly one element with the property. *)
Lemma filter_exactly_one {A} (P : A → Prop) `{∀ x, Decision (P x)} (l : list A) :
  ∀ i : nat,
    i < length l →
    (∀ k x, l !! k = Some x → (P x ↔ k = i)) →
    length (filter P l) = 1.
Proof.
  induction l as [|a l IH]; intros i Hi Hchar; simpl in Hi; [lia|].
  destruct i as [|i].
  - rewrite filter_cons_True by (by apply (Hchar 0 a)).
    assert (filter P l = []) as ->; [|done].
    clear IH Hi. induction l as [|b l IHl]; [done|].
    rewrite filter_cons_False.
    + apply IHl. intros [|k] x Hx; [by apply (Hchar 0)|].
      split; [|done]. intros HP. by apply (Hchar (S (S k)) x) in HP.
    + intros HP. by apply (Hchar 1 b) in HP.
  - rewrite filter_cons_False.
    + apply (IH i); [lia|]. intros k x Hx.
      destruct (Hchar (S k) x Hx) as [H1 H2].
      split; [intros HP; apply H1 in HP; lia | intros ->; by apply H2].
    + intros HP. by apply (Hchar 0 a) in HP.
Qed.

(** ** Presentation sync *)

(** C1. When a tab and a panel exist at [activeTab], [_changeTab]
    completes normally and leaves exactly one panel with [hidden] false
    and exactly one tab with [aria-selected="true"], both at position
    [activeTab]; every other tab has [tabindex="-1"] and the active tab
    has no [tabindex] attribute. *)
Theorem changeTab_exactly_one (s : State) :
  let i := activeTab (this s) in
  is_Some (at_index (tabElements (host s)) i) →
  is_Some (at_index (panelElements (host s)) i) →
  ∃ s',
    _changeTab s = Normal s'
    ∧ this s' = this s
    ∧ length (tabElements (host s')) = length (tabElements (host s))
    ∧ length (panelElements (host s')) = length (panelElements (host s))
    ∧ length (filter (λ p, hidden p = false) (panelElements (host s'))) = 1
    ∧ length (filter (λ t, getAttribute "aria-selected" t = Some "true")
                (tabElements (host s'))) = 1
    ∧ (∀ k panel, panelElements (host s') !! k = Some panel →
         (hidden panel = false ↔ Z.of_nat k = i))
    ∧ (∀ k tab, tabElements (host s') !! k = Some tab →
         (getAttribute "aria-selected" tab = Some "true" ↔ Z.of_nat k = i)
         ∧ (Z.of_nat k ≠ i → getAttribute "tabindex" tab = Some "-1")
         ∧ (Z.of_nat k = i → getAttribute "tabindex" tab = None)).
Proof.
  intros i Htab Hpanel.
  pose proof (proj1 (at_index_is_Some _ _) Htab) as Hti.
  pose proof (proj1 (at_index_is_Some _ _) Hpanel) as Hpi.
  destruct Htab as [t Ht], Hpanel as [p Hp].
  unfold _changeTab. fold i. rewrite Hp, Ht.
  eexists. split; [reflexivity|]. simpl.
  set (n := Z.to_nat i).
  assert (Hpanels : ∀ k panel,
    alter (set_hidden false) n (set_hidden true <$> panelElements (host s)) !! k
      = Some panel → (hidden panel = false ↔ Z.of_nat k = i)).
  { intros k panel. destruct (decide (n = k)) as [<-|Hne].
    - rewrite list_lookup_alter_eq, list_lookup_fmap.
      intros (y & (z & _ & ->)%fmap_Some & ->)%fmap_Some.
      rewrite hidden_set_hidden. split; [lia|done].
    - rewrite list_lookup_alter_ne, list_lookup_fmap by done.
      intros (z & _ & ->)%fmap_Some.
      rewrite hidden_set_hidden. split; [done|lia]. }
  assert (Htabs : ∀ k tab,
    alter (λ tab, removeAttribute "tabindex" (setAttribute "aria-selected" "true" tab))
      n ((λ tab, setAttribute "tabindex" "-1"
                   (setAttribute "aria-selected" "false" tab))
           <$> tabElements (host s)) !! k = Some tab →
    (getAttribute "aria-selected" tab = Some "true" ↔ Z.of_nat k = i)
    ∧ (Z.of_nat k ≠ i → getAttribute "tabindex" tab = Some "-1")
    ∧ (Z.of_nat k = i → getAttribute "tabindex" tab = None)).
  { intros k tab. destruct (decide (n = k)) as [<-|Hne].
    - rewrite list_lookup_alter_eq, list_lookup_fmap.
      intros (y & (z & _ & ->)%fmap_Some & ->)%fmap_Some.
      unfold getAttribute, removeAttribute, setAttribute. simplify_map_eq.
      repeat split; intros; try done; lia.
    - rewrite list_lookup_alter_ne, list_lookup_fmap by done.
      intros (z & _ & ->)%fmap_Some.
      unfold getAttribute, removeAttribute, setAttribute. simplify_map_eq.
      repeat split; intros; try done; lia. }
  rewrite !length_alter, !length_fmap.
  repeat split; try done.
  - apply (filter_exactly_one _ _ n).
    + rewrite length_alter, length_fmap. lia.
    + intros k x Hx. rewrite (Hpanels k x Hx). lia.
  - apply (filter_exactly_one _ _ n).
    + rewrite length_alter, length_fmap. lia.
    + intros k x Hx. destruct (Htabs k x Hx) as (-> & _). lia.
  - by apply Hpanels.
  - by apply Hpanels.
  - by apply Htabs.
  - by apply Htabs.
  - by apply Htabs.
  - by apply Htabs.
Qed.

Lemma changeTab_exactly_one_witness :
  ∃ s', _changeTab sample_rendered = Normal s'
        ∧ length (filter (λ p, hidden p = false) (panelElements (host s'))) = 1.
Proof.
  destruct (changeTab_exactly_one sample_rendered) as (s' & H1 & _ & _ & _ & H2 & _).
  - eexists. vm_compute. reflexivity.
  - eexists. vm_compute. reflexivity.
  - exists s'. split; [exact H1 | exact H2].
Defined.

(** C8. When no panel exists at [activeTab], [_changeTab] completes
    normally and returns the state it was given: no attribute of any tab
    or panel and no field of the instance has changed. *)
Theorem changeTab_without_panel (s : State) :
  at_index (panelElements (host s)) (activeTab (this s)) = None →
  _changeTab s = Normal s.
Proof. intros H. unfold _changeTab. by rewrite H. Qed.

Lemma changeTab_without_panel_witness :
  _changeTab (set_activeTab 3 sample_rendered)
  = Normal (set_activeTab 3 sample_rendered).
Proof. apply changeTab_without_panel. reflexivity. Defined.

(** The guard looks at the panels only: with a panel but no tab at
    [activeTab] the method throws after its first loop. *)
Example changeTab_panel_without_tab :
  ∃ s', _changeTab (set_tabElements [] sample_rendered) = Throw TypeError s'.
Proof. eexists. reflexivity. Qed.

(** ** Activation *)

(** Outside the tab list [focusTab] throws and hands back its state. *)
Lemma focusTab_out_of_range (i : Z) (s : State) :
  ¬ (0 ≤ i < Z.of_nat (length (tabElements (host s))))%Z →
  focusTab i s = Throw (RangeError "There is no tab at the specified index.") s.
Proof. intros Hout%at_index_None. unfold focusTab. by rewrite Hout. Qed.

(** Inside it, [activeTab] is assigned. *)
Lemma focusTab_in_range (i : Z) (s : State) :
  (0 ≤ i < Z.of_nat (length (tabElements (host s))))%Z →
  focusTab i s = Normal (set_activeTab i s).
Proof. intros [t Hin]%at_index_is_Some. unfold focusTab. by rewrite Hin. Qed.

(** C2. [focusTab(i)] with no tab at [i], that is [i] outside
    [0 .. count-1], throws the [RangeError] and leaves the state, and so
    [activeTab], as it was; with a tab at [i] it sets [activeTab] to [i]
    and changes nothing else, and the [updated] hook that the host runs
    for a change of [activeTab] is [_changeTab] on the new state. *)
Theorem focusTab_spec (i : Z) (s : State) :
  let count := Z.of_nat (length (tabElements (host s))) in
  (¬ (0 ≤ i < count)%Z →
     focusTab i s = Throw (RangeError "There is no tab at the specified index.") s
     ∧ activeTab (this (stateOf (focusTab i s))) = activeTab (this s))
  ∧ ((0 ≤ i < count)%Z →
     focusTab i s = Normal (set_activeTab i s)
     ∧ activeTab (this (set_activeTab i s)) = i
     ∧ host (set_activeTab i s) = host s
     ∧ page (set_activeTab i s) = page s
     ∧ ∀ changedProperties,
         "activeTab" ∈ changedProperties →
         updated changedProperties (set_activeTab i s)
         = _changeTab (set_activeTab i s)).
Proof.
  intros count. subst count. split.
  - intros Hout. by rewrite focusTab_out_of_range.
  - intros Hin. rewrite focusTab_in_range by done.
    repeat split. intros cp Hcp. unfold updated. by rewrite decide_True.
Qed.

Lemma focusTab_spec_witness :
  focusTab 3 sample_rendered
  = Throw (RangeError "There is no tab at the specified index.") sample_rendered
  ∧ focusTab 2 sample_rendered = Normal (set_activeTab 2 sample_rendered).
Proof.
  split.
  - apply (proj1 (focusTab_spec 3 sample_rendered)). vm_compute. intros [_ H]. discriminate H.
  - apply (proj2 (focusTab_spec 2 sample_rendered)). vm_compute. split; [discriminate | reflexivity].
Defined.

(** C4. [previousTab()] is [focusTab(activeTab - 1)] and [nextTab()] is
    [focusTab(activeTab + 1)], without clamping or wrapping: at
    [activeTab = 0] the former, and at [activeTab = count - 1] the latter,
    throws the [RangeError] of [focusTab] and leaves the state as it was. *)
Theorem previousTab_nextTab_spec (s : State) :
  let count := Z.of_nat (length (tabElements (host s))) in
  previousTab s = focusTab (activeTab (this s) - 1) s
  ∧ nextTab s = focusTab (activeTab (this s) + 1) s
  ∧ (activeTab (this s) = 0%Z →
     previousTab s
     = Throw (RangeError "There is no tab at the specified index.") s)
  ∧ (activeTab (this s) = (count - 1)%Z →
     nextTab s
     = Throw (RangeError "There is no tab at the specified index.") s).
Proof.
  intros count. subst count. repeat split.
  - intros H0. unfold previousTab. apply focusTab_out_of_range. lia.
  - intros Hlast. unfold nextTab. apply focusTab_out_of_range. lia.
Qed.

Lemma previousTab_nextTab_spec_witness :
  previousTab sample_rendered
  = Throw (RangeError "There is no tab at the specified index.") sample_rendered
  ∧ nextTab (set_activeTab 2 sample_rendered)
    = Throw (RangeError "There is no tab at the specified index.")
        (set_activeTab 2 sample_rendered).
Proof.
  split.
  - apply (proj1 (proj2 (proj2 (previousTab_nextTab_spec sample_rendered)))).
    reflexivity.
  - apply (proj2 (proj2 (proj2
             (previousTab_nextTab_spec (set_activeTab 2 sample_rendered))))).
    reflexivity.
Defined.

(** The scenario of three children: the first update shows panel 1, two
    [nextTab()] calls, each followed by the [updated] hook, show panels 2
    and 3, and a third call throws. *)
Example three_tabs_scenario :
  let step s := andThen (nextTab s) (updated {["activeTab"]}) in
  let visible s := negb ∘ hidden <$> panelElements (host s) in
  let s0 := stateOf (updated {["activeTab"]} sample_rendered) in
  let s1 := stateOf (step s0) in
  let s2 := stateOf (step s1) in
  visible s0 = [true; false; false]
  ∧ visible s1 = [false; true; false]
  ∧ visible s2 = [false; false; true]
  ∧ step s2 = Throw (RangeError "There is no tab at the specified index.") s2.
Proof. vm_compute. repeat split. Qed.

(** ** Keyboard *)

Lemma indexOf_lookup (l : list Node) :
  ∀ (k : nat) (x : Node), NoDup l → l !! k = Some x → indexOf x l = Some k.
Proof.
  induction l as [|y l IH]; intros k x Hnd Hk; [done|].
  apply NoDup_cons in Hnd as [Hy Hnd]. simpl.
  destruct k as [|k]; simpl in Hk.
  - injection Hk as ->. by rewrite decide_True.
  - rewrite decide_False.
    + by rewrite (IH k x Hnd Hk).
    + intros ->. apply Hy. by eapply list_elem_of_lookup_2.
Qed.

(** What [focus] does to the state: the focus is on [el], the host and
    the element tree are as before, and the instance has changed at most
    through [onFocus]. *)
Lemma focus_cases (el : Node) (s : State) :
  focus el s = set_activeElement el s
  ∨ (el ≠ activeElement (page s)
     ∧ focus el s = onFocus (tabButtons (host s)) el (set_activeElement el s)).
Proof. unfold focus. repeat case_decide; auto. Qed.

Lemma focus_activeElement (el : Node) (s : State) :
  activeElement (page (focus el s)) = el.
Proof. by destruct (focus_cases el s) as [-> | [_ ->]]. Qed.

Lemma focus_host (el : Node) (s : State) : host (focus el s) = host s.
Proof. by destruct (focus_cases el s) as [-> | [_ ->]]. Qed.

Lemma focus_tree (el : Node) (s : State) :
  parentElement (page (focus el s)) = parentElement (page s)
  ∧ elementChildren (page (focus el s)) = elementChildren (page s)
  ∧ windowListeners (page (focus el s)) = windowListeners (page s).
Proof. by destruct (focus_cases el s) as [-> | [_ ->]]. Qed.

Section RovingFocus.

Variable s : State.
Variable parent : Node.
Variable k : nat.

Let item := activeElement (page s).
Let siblings := elementChildren (page s) parent.

Hypothesis item_parent : parentElement (page s) item = Some parent.
Hypothesis siblings_distinct : NoDup siblings.
Hypothesis item_position : siblings !! k = Some item.

Lemma focusFirstItem_lands :
  ∃ x, siblings !! 0 = Some x ∧ focusFirstItem s = Normal (focus x s).
Proof.
  unfold focusFirstItem. fold item. rewrite item_parent. fold siblings.
  rewrite head_lookup.
  destruct (siblings !! 0) as [x|] eqn:Hx; [by exists x|].
  apply lookup_ge_None in Hx.
  pose proof (lookup_lt_Some _ _ _ item_position). lia.
Qed.

Lemma focusLastItem_lands :
  ∃ x, siblings !! (length siblings - 1) = Some x
       ∧ focusLastItem s = Normal (focus x s).
Proof.
  unfold focusLastItem. fold item. rewrite item_parent. fold siblings.
  rewrite last_lookup, Nat.sub_1_r.
  destruct (siblings !! pred (length siblings)) as [x|] eqn:Hx; [by exists x|].
  apply lookup_ge_None in Hx.
  pose proof (lookup_lt_Some _ _ _ item_position). lia.
Qed.

Lemma focusNextItem_lands :
  ∃ x, siblings !! (if decide (S k < length siblings) then S k else 0) = Some x
       ∧ focusNextItem s = Normal (focus x s).
Proof.
  unfold focusNextItem, nextElementSibling. fold item.
  rewrite item_parent. fold siblings.
  rewrite (indexOf_lookup _ _ _ siblings_distinct item_position).
  destruct (decide (S k < length siblings)) as [Hlt|Hge].
  - apply lookup_lt_is_Some_2 in Hlt as [x Hx]. rewrite Hx. by exists x.
  - rewrite (proj2 (lookup_ge_None siblings (S k))) by lia.
    apply focusFirstItem_lands.
Qed.

Lemma focusPreviousItem_lands :
  ∃ x, siblings !! (if decide (k = 0) then length siblings - 1 else k - 1) = Some x
       ∧ focusPreviousItem s = Normal (focus x s).
Proof.
  unfold focusPreviousItem, previousElementSibling. fold item.
  rewrite item_parent. fold siblings.
  rewrite (indexOf_lookup _ _ _ siblings_distinct item_position).
  destruct (decide (k = 0)) as [Hk0|Hk0].
  - rewrite Hk0. apply focusLastItem_lands.
  - assert (∃ k', k = S k') as [k' Hk'] by (exists (k - 1); lia).
    rewrite Hk'. simpl. rewrite Nat.sub_0_r.
    assert (is_Some (siblings !! k')) as [x Hx].
    { apply lookup_lt_is_Some_2.
      pose proof (lookup_lt_Some _ _ _ item_position). lia. }
    rewrite Hx. by exists x.
Qed.

End RovingFocus.

(** C7. With the focus on a tab of the tab list: Right arrow moves the
    focus to the next sibling, or to the first from the last; Left arrow
    to the previous sibling, or to the last from the first; Home to the
    first and End to the last, wherever the focus was. Each of the four
    suppresses the default action, and [onKeydown] itself assigns nothing
    to the instance: the state it returns is the given one with the focus
    moved, and [activeTab] differs only by what [onFocus] does when the
    focus event of that move reaches the newly focused tab. *)
Theorem onKeydown_roving_focus (s : State) (e : KeyboardEvent)
    (parent : Node) (k : nat) :
  let item := activeElement (page s) in
  let siblings := elementChildren (page s) parent in
  let n := length siblings in
  parentElement (page s) item = Some parent →
  NoDup siblings →
  siblings !! k = Some item →
  (keyCode e = KEYCODE_RIGHT →
     ∃ x, siblings !! (if decide (S k < n) then S k else 0) = Some x
          ∧ keydownMovesFocusTo e s x)
  ∧ (keyCode e = KEYCODE_LEFT →
     ∃ x, siblings !! (if decide (k = 0) then n - 1 else k - 1) = Some x
          ∧ keydownMovesFocusTo e s x)
  ∧ (keyCode e = KEYCODE_HOME →
     ∃ x, siblings !! 0 = Some x ∧ keydownMovesFocusTo e s x)
  ∧ (keyCode e = KEYCODE_END →
     ∃ x, siblings !! (n - 1) = Some x ∧ keydownMovesFocusTo e s x).
Proof.
  intros item siblings n Hparent Hnd Hk. subst item siblings n.
  unfold keydownMovesFocusTo, onKeydown.
  repeat split; intros ->; simpl.
  - destruct (focusNextItem_lands s parent k Hparent Hnd Hk) as (x & Hx & ->).
    exists x. split; [done|]. eexists _, _. split; [reflexivity|].
    auto using focus_activeElement, focus_host, focus_cases.
  - destruct (focusPreviousItem_lands s parent k Hparent Hnd Hk) as (x & Hx & ->).
    exists x. split; [done|]. eexists _, _. split; [reflexivity|].
    auto using focus_activeElement, focus_host, focus_cases.
  - destruct (focusFirstItem_lands s parent k Hparent Hk) as (x & Hx & ->).
    exists x. split; [done|]. eexists _, _. split; [reflexivity|].
    auto using focus_activeElement, focus_host, focus_cases.
  - destruct (focusLastItem_lands s parent k Hparent Hk) as (x & Hx & ->).
    exists x. split; [done|]. eexists _, _. split; [reflexivity|].
    auto using focus_activeElement, focus_host, focus_cases.
Qed.

Lemma onKeydown_roving_focus_witness :
  ∃ x, [1; 2; 3] !! 2 = Some x
       ∧ keydownMovesFocusTo (mkKeyboardEvent 39 false) sample_rendered x.
Proof.
  destruct (onKeydown_roving_focus sample_rendered (mkKeyboardEvent 39 false)
              100 1) as (Hright & _).
  - reflexivity.
  - change (NoDup [1; 2; 3]). apply (bool_decide_unpack _). exact I.
  - reflexivity.
  - apply Hright. reflexivity.
Defined.

(** On the sample page the focus is on the second tab while the first is
    active: Right arrow moves the focus to the third tab, and the focus
    event of that move makes it the active one. *)
Example onKeydown_right_on_sample :
  ∃ s', snd (onKeydown (mkKeyboardEvent 39 false) sample_rendered) = Normal s'
        ∧ activeElement (page s') = 3
        ∧ activeTab (this sample_rendered) = 0%Z
        ∧ activeTab (this s') = 2%Z.
Proof. eexists. repeat split. Qed.

(** C10. A keydown whose key code is none of Right (39), Left (37),
    Home (36) and End (35) leaves the state as it is, the focus and
    [activeTab] included, completes normally and does not suppress the
    default action: the event comes back unchanged. *)
Theorem onKeydown_other_keys (e : KeyboardEvent) (s : State) :
  keyCode e ≠ KEYCODE_RIGHT →
  keyCode e ≠ KEYCODE_LEFT →
  keyCode e ≠ KEYCODE_HOME →
  keyCode e ≠ KEYCODE_END →
  onKeydown e s = (e, Normal s).
Proof.
  intros Hr Hl Hh He. unfold onKeydown.
  by rewrite !(proj2 (Z.eqb_neq _ _)).
Qed.

Lemma onKeydown_other_keys_witness :
  onKeydown (mkKeyboardEvent 13 false) sample_rendered
  = (mkKeyboardEvent 13 false, Normal sample_rendered).
Proof. apply onKeydown_other_keys; discriminate. Defined.

(** ** Lifecycle *)

Lemma elem_of_addEventListener (type : string) (l : Listener) (ls : ListenerList) x :
  x ∈ addEventListener type l ls ↔ x ∈ ls ∨ x = (type, l).
Proof.
  unfold addEventListener. case_decide as Hin.
  - split; [by left | by intros [? | ->]].
  - by rewrite elem_of_app, list_elem_of_singleton.
Qed.

Lemma elem_of_removeEventListener (type : string) (l : Listener) (ls : ListenerList) x :
  x ∈ removeEventListener type l ls ↔ x ≠ (type, l) ∧ x ∈ ls.
Proof.
  unfold removeEventListener.
  apply (list_elem_of_filter (λ y, y ≠ (type, l))).
Qed.

(** C9, as the code has it. Attaching registers the [resize] listener on
    [window] and detaching removes it, so that an instance without window
    listeners before has none after; the ["request-nav-to-next"]
    listeners that [firstUpdated] puts on the [web-question] descendants
    are not removed by detaching: every one of them is still there. *)
Theorem detach_releases_resize_only
    (checkOverflow : option Node -> string -> bool) (s : State) :
  let on_resize := ("resize", mkListener (self (this s)) M_onResize) in
  let on_next := ("request-nav-to-next", mkListener (self (this s)) M_nextTab) in
  let s1 := connectedCallback s in
  let s2 := firstUpdated checkOverflow s1 in
  let s3 := disconnectedCallback s2 in
  on_resize ∈ windowListeners (page s1)
  ∧ (on_resize ∉ windowListeners (page s3))
  ∧ (windowListenersOf (self (this s)) s = [] →
     windowListenersOf (self (this s)) s3 = [])
  ∧ length (questions (host s3)) = length (questions (host s))
  ∧ (∀ q, q ∈ questions (host s3) → on_next ∈ q).
Proof.
  intros on_resize on_next s1 s2 s3. subst s1 s2 s3. simpl.
  split; [|split; [|split; [|split]]].
  - apply elem_of_addEventListener. by right.
  - intros [Hne _]%elem_of_removeEventListener. by apply Hne.
  - unfold windowListenersOf. simpl. intros Hnone.
    apply elem_of_nil_inv. intros x [Hown Hx]%list_elem_of_filter.
    apply elem_of_removeEventListener in Hx as [Hne Hx].
    apply elem_of_addEventListener in Hx as [Hx | ->]; [|done].
    eapply (filter_nil_not_elem_of _ _ x Hnone); done.
  - by rewrite length_fmap.
  - intros q (q0 & -> & _)%list_elem_of_fmap.
    apply elem_of_addEventListener. by right.
Qed.

Lemma detach_releases_resize_only_witness :
  windowListenersOf 1
    (disconnectedCallback
       (firstUpdated (λ _ _, false) (connectedCallback sample_rendered))) = [].
Proof.
  apply (proj1 (proj2 (proj2
           (detach_releases_resize_only (λ _ _, false) sample_rendered)))).
  reflexivity.
Defined.

(** The claim of a full release fails on the sample page: its one
    [web-question] keeps the instance's [nextTab] listener after detach. *)
Lemma detach_keeps_question_listeners :
  listenersOf 1 sample_rendered = []
  ∧ listenersOf 1
      (disconnectedCallback
         (firstUpdated (λ _ _, false) (connectedCallback sample_rendered)))
    = [("request-nav-to-next", mkListener 1 M_nextTab)]
  ∧ ¬ releasesEverything (λ _ _, false) sample_rendered.
Proof. repeat split. intros H. discriminate H. Qed.

(** * Further properties *)

(** ** More on presentation sync *)

(** The two attribute writes of the first loop, done twice, are the
    writes done once. *)
Lemma deselect_twice (tab : Element) :
  setAttribute "tabindex" "-1" (setAttribute "aria-selected" "false"
    (setAttribute "tabindex" "-1" (setAttribute "aria-selected" "false" tab)))
  = setAttribute "tabindex" "-1" (setAttribute "aria-selected" "false" tab).
Proof.
  unfold setAttribute. apply map_eq. intros name.
  destruct (decide (name = "tabindex")) as [->|]; [by simplify_map_eq|].
  destruct (decide (name = "aria-selected")) as [->|]; by simplify_map_eq.
Qed.

(** Selecting an already selected tab again gives the same element. *)
Lemma select_twice (tab : Element) :
  removeAttribute "tabindex" (setAttribute "aria-selected" "true"
    (setAttribute "tabindex" "-1" (setAttribute "aria-selected" "false"
      (removeAttribute "tabindex" (setAttribute "aria-selected" "true" tab)))))
  = removeAttribute "tabindex" (setAttribute "aria-selected" "true" tab).
Proof.
  unfold setAttribute, removeAttribute. apply map_eq. intros name.
  destruct (decide (name = "tabindex")) as [->|]; [by simplify_map_eq|].
  destruct (decide (name = "aria-selected")) as [->|]; by simplify_map_eq.
Qed.

Lemma set_hidden_twice (b c : bool) (el : Element) :
  set_hidden b (set_hidden c (set_hidden b el)) = set_hidden b el.
Proof.
  unfold set_hidden, setAttribute, removeAttribute. apply map_eq. intros name.
  destruct (decide (name = "hidden")) as [->|]; destruct b, c; by simplify_map_eq.
Qed.

Lemma set_hidden_same (b : bool) (el : Element) :
  set_hidden b (set_hidden b el) = set_hidden b el.
Proof.
  unfold set_hidden, setAttribute, removeAttribute. apply map_eq. intros name.
  destruct (decide (name = "hidden")) as [->|]; destruct b; by simplify_map_eq.
Qed.

(** A loop over all elements followed by a write to one of them, run a
    second time, rebuilds the list it has built. *)
Lemma loop_then_one_twice {A} (f g : A → A) (n : nat) (l : list A) :
  (∀ x, g (g x) = g x) →
  (∀ x, f (g (f x)) = f x) →
  alter f n (g <$> alter f n (g <$> l)) = alter f n (g <$> l).
Proof.
  intros Hg Hf. apply list_eq. intros k.
  rewrite !list_lookup_alter. destruct (decide (n = k)) as [<-|Hne].
  - rewrite !list_lookup_fmap, list_lookup_alter_eq, !list_lookup_fmap.
    destruct (l !! n); simpl; [|done]. by rewrite Hf.
  - rewrite !list_lookup_fmap, list_lookup_alter_ne, !list_lookup_fmap by done.
    destruct (l !! k); simpl; [|done]. by rewrite Hg.
Qed.

(** The normal completion of [_changeTab], written out. *)
Lemma changeTab_normal (s : State) :
  is_Some (at_index (tabElements (host s)) (activeTab (this s))) →
  is_Some (at_index (panelElements (host s)) (activeTab (this s))) →
  _changeTab s =
  Normal
    (set_panelElements
       (alter (set_hidden false) (Z.to_nat (activeTab (this s)))
          (set_hidden true <$> panelElements (host s)))
       (set_tabElements
          (alter (λ tab, removeAttribute "tabindex"
                           (setAttribute "aria-selected" "true" tab))
             (Z.to_nat (activeTab (this s)))
             ((λ tab, setAttribute "tabindex" "-1"
                        (setAttribute "aria-selected" "false" tab))
                <$> tabElements (host s)))
          s)).
Proof. intros [t Ht] [p Hp]. unfold _changeTab. by rewrite Hp, Ht. Qed.

(** The exceptional completion, written out. *)
Lemma changeTab_throw (s : State) :
  at_index (tabElements (host s)) (activeTab (this s)) = None →
  is_Some (at_index (panelElements (host s)) (activeTab (this s))) →
  _changeTab s =
  Throw TypeError
    (set_tabElements
       ((λ tab, setAttribute "tabindex" "-1"
                  (setAttribute "aria-selected" "false" tab))
          <$> tabElements (host s))
       s).
Proof. intros Ht [p Hp]. unfold _changeTab. by rewrite Hp, Ht. Qed.

(** X1. Running [_changeTab] again on the state it left behind repeats
    its outcome and changes nothing further: this holds for the normal
    completion, for the silent return and for the [TypeError]. *)
Theorem changeTab_idempotent (s : State) :
  _changeTab (stateOf (_changeTab s)) = _changeTab s.
Proof.
  destruct (at_index (panelElements (host s)) (activeTab (this s))) as [p|] eqn:Hp.
  - destruct (at_index (tabElements (host s)) (activeTab (this s))) as [t|] eqn:Ht.
    + rewrite (changeTab_normal s) by (by eexists). simpl.
      rewrite changeTab_normal; simpl.
      * rewrite (loop_then_one_twice _ _ _ (tabElements (host s)))
          by (intros; by rewrite ?deselect_twice, ?select_twice).
        rewrite (loop_then_one_twice _ _ _ (panelElements (host s)))
          by (intros; by rewrite ?set_hidden_same, ?set_hidden_twice).
        done.
      * apply at_index_is_Some. rewrite length_alter, length_fmap.
        apply at_index_is_Some. by eexists.
      * apply at_index_is_Some. rewrite length_alter, length_fmap.
        apply at_index_is_Some. by eexists.
    + rewrite (changeTab_throw s) by (done || by eexists). simpl.
      rewrite changeTab_throw; simpl.
      * rewrite <- list_fmap_compose.
        f_equal. unfold set_tabElements. simpl. do 2 f_equal.
        apply list_fmap_ext. intros _ x _. apply deselect_twice.
      * apply at_index_None. rewrite length_fmap. by apply at_index_None.
      * by eexists.
  - unfold _changeTab at 2. rewrite Hp. simpl.
    unfold _changeTab. by rewrite Hp.
Qed.



(** X3. With a panel but no tab at [activeTab] (the selectors found more
    panels than tabs), [_changeTab] throws a [TypeError] after its first
    loop: every tab is left unselected with [tabindex="-1"], and the
    panels keep the visibility they had. *)
Theorem changeTab_missing_tab (s : State) :
  at_index (tabElements (host s)) (activeTab (this s)) = None →
  is_Some (at_index (panelElements (host s)) (activeTab (this s))) →
  ∃ s',
    _changeTab s = Throw TypeError s'
    ∧ this s' = this s
    ∧ panelElements (host s') = panelElements (host s)
    ∧ length (tabElements (host s')) = length (tabElements (host s))
    ∧ (∀ k tab, tabElements (host s') !! k = Some tab →
         getAttribute "aria-selected" tab = Some "false"
         ∧ getAttribute "tabindex" tab = Some "-1").
Proof.
  intros Ht Hp. rewrite (changeTab_throw s Ht Hp).
  eexists. split; [reflexivity|]. simpl. rewrite length_fmap.
  do 3 (split; [done|]). intros k tab Hk.
  rewrite list_lookup_fmap in Hk.
  destruct (tabElements (host s) !! k); simplify_eq/=.
  unfold getAttribute, setAttribute. by simplify_map_eq.
Qed.

Lemma changeTab_missing_tab_witness :
  ∃ s', _changeTab (set_tabElements [∅] (set_activeTab 1 sample_rendered))
        = Throw TypeError s'
        ∧ panelElements (host s') = panelElements (host sample_rendered).
Proof.
  destruct (changeTab_missing_tab
              (set_tabElements [∅] (set_activeTab 1 sample_rendered)))
    as (s' & H1 & _ & H2 & _).
  - reflexivity.
  - eexists. vm_compute. reflexivity.
  - exists s'. split; [exact H1 | exact H2].
Defined.

(** ** More on activation *)

Lemma synced_panel_visible (n : nat) (l : list Element) (k : nat) (panel : Element) :
  alter (set_hidden false) n (set_hidden true <$> l) !! k = Some panel →
  (hidden panel = false ↔ k = n).
Proof.
  destruct (decide (n = k)) as [<-|Hne].
  - rewrite list_lookup_alter_eq, list_lookup_fmap.
    intros (y & (z & _ & ->)%fmap_Some & ->)%fmap_Some.
    by rewrite hidden_set_hidden.
  - rewrite list_lookup_alter_ne, list_lookup_fmap by done.
    intros (z & _ & ->)%fmap_Some.
    rewrite hidden_set_hidden. split; [done | by intros ->].
Qed.

Lemma synced_tab_selected (n : nat) (l : list Element) (k : nat) (tab : Element) :
  alter (λ tab, removeAttribute "tabindex" (setAttribute "aria-selected" "true" tab))
    n ((λ tab, setAttribute "tabindex" "-1"
                 (setAttribute "aria-selected" "false" tab)) <$> l) !! k
  = Some tab →
  (getAttribute "aria-selected" tab = Some "true" ↔ k = n).
Proof.
  destruct (decide (n = k)) as [<-|Hne].
  - rewrite list_lookup_alter_eq, list_lookup_fmap.
    intros (y & (z & _ & ->)%fmap_Some & ->)%fmap_Some.
    unfold getAttribute, removeAttribute, setAttribute. by simplify_map_eq.
  - rewrite list_lookup_alter_ne, list_lookup_fmap by done.
    intros (z & _ & ->)%fmap_Some.
    unfold getAttribute, removeAttribute, setAttribute. simplify_map_eq.
    split; [done | by intros ->].
Qed.

(** X4. [focusTab(i)] followed by the [updated] hook for the change of
    [activeTab] selects tab [i] and shows panel [i] and nothing else,
    whatever was active before, provided both a tab and a panel exist at
    [i]. *)
Theorem focusTab_then_updated (i : Z) (s : State) (changedProperties : gset string) :
  "activeTab" ∈ changedProperties →
  (0 ≤ i < Z.of_nat (length (tabElements (host s))))%Z →
  (i < Z.of_nat (length (panelElements (host s))))%Z →
  ∃ s',
    andThen (focusTab i s) (updated changedProperties) = Normal s'
    ∧ activeTab (this s') = i
    ∧ (∀ k panel, panelElements (host s') !! k = Some panel →
         (hidden panel = false ↔ Z.of_nat k = i))
    ∧ (∀ k tab, tabElements (host s') !! k = Some tab →
         (getAttribute "aria-selected" tab = Some "true" ↔ Z.of_nat k = i)).
Proof.
  intros Hcp Htab Hpanel.
  rewrite focusTab_in_range by done. simpl.
  unfold updated. rewrite decide_True by done.
  rewrite changeTab_normal by (apply at_index_is_Some; simpl; lia).
  eexists. split; [reflexivity|]. simpl. split; [done|]. split.
  - intros k panel Hk%synced_panel_visible. rewrite Hk. lia.
  - intros k tab Hk%synced_tab_selected. rewrite Hk. lia.
Qed.

Lemma focusTab_then_updated_witness :
  ∃ s', andThen (focusTab 2 sample_rendered) (updated {["activeTab"]}) = Normal s'
        ∧ activeTab (this s') = 2%Z.
Proof.
  destruct (focusTab_then_updated 2 sample_rendered {["activeTab"]})
    as (s' & H1 & H2 & _).
  - apply (bool_decide_unpack _). exact I.
  - vm_compute. split; [discriminate | reflexivity].
  - reflexivity.
  - exists s'. split; [exact H1 | exact H2].
Defined.

(** X5. [focusTab] checks the tabs and [_changeTab] the panels: with a
    tab but no panel at [i], [focusTab(i)] followed by the [updated] hook
    moves [activeTab] to [i] and leaves every tab and panel as it was. *)
Theorem focusTab_without_panel (i : Z) (s : State) (changedProperties : gset string) :
  (0 ≤ i < Z.of_nat (length (tabElements (host s))))%Z →
  (Z.of_nat (length (panelElements (host s))) ≤ i)%Z →
  andThen (focusTab i s) (updated changedProperties) = Normal (set_activeTab i s)
  ∧ host (set_activeTab i s) = host s.
Proof.
  intros Htab Hpanel. rewrite focusTab_in_range by done. simpl.
  split; [|done]. unfold updated. case_decide; [|done].
  unfold _changeTab.
  rewrite (proj2 (at_index_None (panelElements (host (set_activeTab i s)))
                    (activeTab (this (set_activeTab i s))))); [done|].
  simpl. lia.
Qed.

Lemma focusTab_without_panel_witness :
  andThen (focusTab 2 (set_panelElements [] sample_rendered)) (updated {["activeTab"]})
  = Normal (set_activeTab 2 (set_panelElements [] sample_rendered)).
Proof.
  apply (proj1 (focusTab_without_panel 2 (set_panelElements [] sample_rendered)
                  {["activeTab"]}
                  ltac:(vm_compute; split; [discriminate | reflexivity])
                  ltac:(vm_compute; discriminate))).
Defined.

(** Assigning to a field the value it holds gives the same state. *)
Lemma set_activeTab_same (s : State) : set_activeTab (activeTab (this s)) s = s.
Proof. by destruct s as [[] ? ?]. Qed.

Lemma set_activeTab_twice (a b : Z) (s : State) :
  set_activeTab b (set_activeTab a s) = set_activeTab b s.
Proof. done. Qed.

(** X6. Away from the ends, [nextTab()] and [previousTab()] undo each
    other: either one followed by the other completes normally in the
    state the pair started from. *)
Theorem nextTab_previousTab_round_trip (s : State) :
  let a := activeTab (this s) in
  let count := Z.of_nat (length (tabElements (host s))) in
  ((0 ≤ a)%Z → (a + 1 < count)%Z → andThen (nextTab s) previousTab = Normal s)
  ∧ ((0 < a)%Z → (a < count)%Z → andThen (previousTab s) nextTab = Normal s).
Proof.
  intros a count. subst a count. split; intros H1 H2.
  - unfold nextTab. rewrite focusTab_in_range by lia. simpl.
    unfold previousTab. rewrite focusTab_in_range by (simpl; lia). simpl.
    rewrite set_activeTab_twice, Z.add_simpl_r. by rewrite set_activeTab_same.
  - unfold previousTab. rewrite focusTab_in_range by lia. simpl.
    unfold nextTab. rewrite focusTab_in_range by (simpl; lia). simpl.
    rewrite set_activeTab_twice, Z.sub_add. by rewrite set_activeTab_same.
Qed.

Lemma nextTab_previousTab_round_trip_witness :
  andThen (nextTab sample_rendered) previousTab = Normal sample_rendered.
Proof.
  apply (proj1 (nextTab_previousTab_round_trip sample_rendered)).
  - discriminate.
  - reflexivity.
Defined.

Lemma times_nextTab_in_range (n : nat) :
  ∀ s : State,
    (0 ≤ activeTab (this s))%Z →
    (activeTab (this s) + Z.of_nat n < Z.of_nat (length (tabElements (host s))))%Z →
    times n nextTab s = Normal (set_activeTab (activeTab (this s) + Z.of_nat n) s).
Proof.
  induction n as [|n IH]; intros s H0 Hn; simpl times.
  - by rewrite Z.add_0_r, set_activeTab_same.
  - unfold nextTab at 1. rewrite focusTab_in_range by lia. simpl andThen.
    rewrite IH by (simpl; lia). simpl. rewrite set_activeTab_twice.
    do 2 f_equal. lia.
Qed.

(** X7. From a valid [activeTab = a], [nextTab()] can be called
    [count - 1 - a] times in a row, which leads to the last tab; the call
    after that throws the [RangeError] and leaves [activeTab] on the last
    tab. *)
Theorem nextTab_until_last (s : State) :
  let a := activeTab (this s) in
  let count := Z.of_nat (length (tabElements (host s))) in
  (0 ≤ a < count)%Z →
  times (Z.to_nat (count - 1 - a)) nextTab s = Normal (set_activeTab (count - 1) s)
  ∧ times (S (Z.to_nat (count - 1 - a))) nextTab s
    = Throw (RangeError "There is no tab at the specified index.")
        (set_activeTab (count - 1) s).
Proof.
  intros a count Ha. subst a count.
  set (n := Z.to_nat _).
  assert (Hn : times n nextTab s
               = Normal (set_activeTab
                           (Z.of_nat (length (tabElements (host s))) - 1) s)).
  { rewrite times_nextTab_in_range by lia. do 2 f_equal. lia. }
  split; [done|].
  assert (Hsnoc : ∀ k t, times (S k) nextTab t = andThen (times k nextTab t) nextTab).
  { induction k as [|k IH]; intros t.
    - simpl. by destruct (nextTab t).
    - change (times (S (S k)) nextTab t) with (andThen (nextTab t) (times (S k) nextTab)).
      simpl times at 2. destruct (nextTab t) as [t'|e t']; simpl; [|done].
      apply IH. }
  rewrite Hsnoc, Hn. simpl. unfold nextTab. apply focusTab_out_of_range.
  simpl. lia.
Qed.

Lemma nextTab_until_last_witness :
  times 2 nextTab sample_rendered = Normal (set_activeTab 2 sample_rendered)
  ∧ times 3 nextTab sample_rendered
    = Throw (RangeError "There is no tab at the specified index.")
        (set_activeTab 2 sample_rendered).
Proof.
  apply (nextTab_until_last sample_rendered). vm_compute.
  split; [discriminate | reflexivity].
Defined.

(** ** More on the lifecycle *)

Lemma addEventListener_twice (type : string) (l : Listener) (ls : ListenerList) :
  addEventListener type l (addEventListener type l ls) = addEventListener type l ls.
Proof.
  unfold addEventListener at 1. rewrite decide_True; [done|].
  apply elem_of_addEventListener. by right.
Qed.

Lemma removeEventListener_absent (type : string) (l : Listener) (ls : ListenerList) :
  (type, l) ∉ ls → removeEventListener type l ls = ls.
Proof.
  unfold removeEventListener. induction ls as [|x ls IH]; intros Hnot; [done|].
  apply not_elem_of_cons in Hnot as [Hne Hnot].
  rewrite filter_cons_True by done. by rewrite IH.
Qed.

Lemma remove_after_add (type : string) (l : Listener) (ls : ListenerList) :
  (type, l) ∉ ls → removeEventListener type l (addEventListener type l ls) = ls.
Proof.
  intros Hnot. unfold addEventListener. rewrite decide_False by done.
  unfold removeEventListener. rewrite filter_app.
  fold (removeEventListener type l ls). rewrite removeEventListener_absent by done.
  rewrite filter_cons_False, filter_nil by (by intros ?).
  apply app_nil_r.
Qed.

Lemma set_windowListeners_same (s : State) :
  set_windowListeners (windowListeners (page s)) s = s.
Proof. by destruct s as [? ? []]. Qed.

(** X8. Attaching and then detaching an element whose [resize] listener
    was not registered gives back the state before attaching; and with
    the listener not registered, detaching alone changes nothing. *)
Theorem attach_detach_round_trip (s : State) :
  ("resize", mkListener (self (this s)) M_onResize) ∉ windowListeners (page s) →
  disconnectedCallback (connectedCallback s) = s
  ∧ disconnectedCallback s = s.
Proof.
  intros Hnot. unfold disconnectedCallback, connectedCallback. simpl. split.
  - rewrite remove_after_add by done.
    change (set_windowListeners (windowListeners (page s))
              (set_windowListeners
                 (addEventListener "resize"
                    (mkListener (self (this s)) M_onResize)
                    (windowListeners (page s))) s))
      with (set_windowListeners (windowListeners (page s)) s).
    apply set_windowListeners_same.
  - rewrite removeEventListener_absent by done. apply set_windowListeners_same.
Qed.

Lemma attach_detach_round_trip_witness :
  disconnectedCallback (connectedCallback sample_rendered) = sample_rendered.
Proof.
  apply (proj1 (attach_detach_round_trip sample_rendered
                  ltac:(vm_compute; apply not_elem_of_nil))).
Defined.

(** X9. Attaching an attached element again changes nothing: [window]
    holds the [resize] listener of an instance once, however often
    [connectedCallback] runs, so that the one removal in
    [disconnectedCallback] undoes them all. *)
Theorem attach_twice (s : State) :
  connectedCallback (connectedCallback s) = connectedCallback s
  ∧ (NoDup (windowListeners (page s)) →
     NoDup (windowListeners (page (connectedCallback s))))
  ∧ (("resize", mkListener (self (this s)) M_onResize) ∉ windowListeners (page s) →
     disconnectedCallback (connectedCallback (connectedCallback s)) = s).
Proof.
  assert (Htwice : connectedCallback (connectedCallback s) = connectedCallback s).
  { unfold connectedCallback. simpl. by rewrite addEventListener_twice. }
  split; [done|]. split.
  - intros Hnd. simpl. unfold addEventListener. case_decide as Hin; [done|].
    apply NoDup_app. split; [done|]. split; [|apply NoDup_singleton].
    intros x Hx ->%list_elem_of_singleton. by apply Hin.
  - intros Hnot. rewrite Htwice.
    unfold disconnectedCallback, connectedCallback. simpl.
    rewrite remove_after_add by done.
    change (set_windowListeners (windowListeners (page s))
              (set_windowListeners
                 (addEventListener "resize"
                    (mkListener (self (this s)) M_onResize)
                    (windowListeners (page s))) s))
      with (set_windowListeners (windowListeners (page s)) s).
    apply set_windowListeners_same.
Qed.

Lemma attach_twice_witness :
  disconnectedCallback (connectedCallback (connectedCallback sample_rendered))
  = sample_rendered.
Proof.
  apply (proj2 (proj2 (attach_twice sample_rendered))).
  vm_compute. apply not_elem_of_nil.
Defined.

(** X10. [firstUpdated], run a second time, changes nothing: it has
    already reset [activeTab] to 0, removed the ["unresolved"] class and
    measured the overflow, and no [web-question] gets the [nextTab]
    listener twice. *)
Theorem firstUpdated_idempotent
    (checkOverflow : option Node -> string -> bool) (s : State) :
  firstUpdated checkOverflow (firstUpdated checkOverflow s)
  = firstUpdated checkOverflow s.
Proof.
  destruct s as [t h p].
  assert (Hq : ∀ l (qs : list ListenerList),
    addEventListener "request-nav-to-next" l
      <$> (addEventListener "request-nav-to-next" l <$> qs)
    = addEventListener "request-nav-to-next" l <$> qs).
  { intros l qs. rewrite <- list_fmap_compose. apply list_fmap_ext.
    intros _ q _. simpl. apply addEventListener_twice. }
  assert (Hc : ∀ cs : list string,
    filter (λ c, c ≠ "unresolved") (filter (λ c, c ≠ "unresolved") cs)
    = filter (λ c, c ≠ "unresolved") cs).
  { intros cs. by apply list_filter_filter_l. }
  destruct t, h. unfold firstUpdated, onResize. simpl.
  unfold set_questions. simpl. by rewrite Hq, Hc.
Qed.

(** X11. The first update followed by the [updated] hook shows the first
    panel and selects the first tab, and only those, when the element has
    a tab and a panel; with no panel the hook does nothing and nothing is
    thrown. In both cases the ["unresolved"] class is gone. *)
Theorem firstUpdated_then_updated
    (checkOverflow : option Node -> string -> bool) (s : State)
    (changedProperties : gset string) :
  "activeTab" ∈ changedProperties →
  let s1 := firstUpdated checkOverflow s in
  (tabElements (host s) ≠ [] → panelElements (host s) ≠ [] →
     ∃ s', updated changedProperties s1 = Normal s'
           ∧ activeTab (this s') = 0%Z
           ∧ ("unresolved" ∉ classList (host s'))
           ∧ (∀ k panel, panelElements (host s') !! k = Some panel →
                (hidden panel = false ↔ k = 0))
           ∧ (∀ k tab, tabElements (host s') !! k = Some tab →
                (getAttribute "aria-selected" tab = Some "true" ↔ k = 0)))
  ∧ (panelElements (host s) = [] →
     updated changedProperties s1 = Normal s1
     ∧ "unresolved" ∉ classList (host s1)).
Proof.
  intros Hcp s1. subst s1.
  assert (Hclass : "unresolved" ∉ filter (λ c, c ≠ "unresolved") (classList (host s))).
  { intros [Hne _]%list_elem_of_filter. by apply Hne. }
  unfold updated. rewrite decide_True by done. split.
  - intros Htabs Hpanels.
    rewrite changeTab_normal.
    + eexists. split; [reflexivity|]. simpl. do 2 (split; [done|]). split.
      * intros k panel Hk. by apply synced_panel_visible in Hk.
      * intros k tab Hk. by apply synced_tab_selected in Hk.
    + apply at_index_is_Some. simpl.
      destruct (tabElements (host s)); [done | simpl; lia].
    + apply at_index_is_Some. simpl.
      destruct (panelElements (host s)); [done | simpl; lia].
  - intros Hnone. split; [|done].
    unfold _changeTab. simpl. by rewrite Hnone.
Qed.

Lemma firstUpdated_then_updated_witness :
  ∃ s', updated {["activeTab"]} (firstUpdated (λ _ _, false) sample_rendered)
        = Normal s'
        ∧ activeTab (this s') = 0%Z.
Proof.
  destruct (firstUpdated_then_updated (λ _ _, false) sample_rendered {["activeTab"]})
    as [H _].
  - apply (bool_decide_unpack _). exact I.
  - destruct H as (s' & H1 & H2 & _); [discriminate.. |].
    exists s'. split; [exact H1 | exact H2].
Defined.

(** ** More on the keyboard *)

(** [focus] on a tab button, when the tab buttons are the list [l]. *)
Lemma focus_tab_button (s : State) (l : list Node) (j : nat) (x : Node) :
  tabButtons (host s) = l →
  NoDup l →
  l !! j = Some x →
  x ≠ activeElement (page s) →
  focus x s = set_activeTab (Z.of_nat j) (set_activeElement x s).
Proof.
  intros Hl Hnd Hj Hne. unfold focus.
  rewrite decide_False by done.
  rewrite decide_True by (rewrite Hl; by eapply list_elem_of_lookup_2).
  unfold onFocus. by rewrite Hl, (indexOf_lookup _ _ _ Hnd Hj).
Qed.

Lemma focus_same (s : State) : focus (activeElement (page s)) s = s.
Proof. unfold focus. rewrite decide_True by done. by destruct s as [? ? []]. Qed.

(** Two focus moves that end on the element and the tab they started
    from give back the state. *)
Lemma focus_there_and_back (s : State) (l : list Node) (k j : nat) (x : Node) :
  tabButtons (host s) = l →
  NoDup l →
  l !! k = Some (activeElement (page s)) →
  l !! j = Some x →
  activeTab (this s) = Z.of_nat k →
  focus (activeElement (page s)) (focus x s) = s.
Proof.
  intros Hl Hnd Hk Hj Ha.
  destruct (decide (x = activeElement (page s))) as [->|Hne].
  - by rewrite !focus_same.
  - rewrite (focus_tab_button s l j x) by done.
    rewrite (focus_tab_button _ l k (activeElement (page s)))
      by (done || (simpl; congruence)).
    rewrite <- Ha. by destruct s as [[] ? []].
Qed.

(** X12. With the focus on the active tab, Right arrow and Left arrow undo
    each other, also across the wrap-around: when the tab list's element
    children are the tab buttons, the focus is on tab [k] and [activeTab]
    is [k], either key followed by the other completes normally in the
    state before the two key presses. The focus events of the two moves
    run [onFocus] twice, and the second run puts [activeTab] back. *)
Theorem arrows_undo_each_other (s : State) (right left : KeyboardEvent)
    (parent : Node) (k : nat) :
  let item := activeElement (page s) in
  let siblings := elementChildren (page s) parent in
  keyCode right = KEYCODE_RIGHT →
  keyCode left = KEYCODE_LEFT →
  (∀ x, x ∈ siblings → parentElement (page s) x = Some parent) →
  NoDup siblings →
  siblings !! k = Some item →
  tabButtons (host s) = siblings →
  activeTab (this s) = Z.of_nat k →
  andThen (snd (onKeydown right s)) (λ s1, snd (onKeydown left s1)) = Normal s
  ∧ andThen (snd (onKeydown left s)) (λ s1, snd (onKeydown right s1)) = Normal s.
Proof.
  intros item siblings Hr Hl Hparents Hnd Hk Hbuttons Hactive. subst item siblings.
  assert (Hparent : parentElement (page s) (activeElement (page s)) = Some parent).
  { apply Hparents. by eapply list_elem_of_lookup_2. }
  pose proof (lookup_lt_Some _ _ _ Hk) as Hlt.
  unfold onKeydown. rewrite Hr, Hl. simpl. split.
  - destruct (focusNextItem_lands s parent k Hparent Hnd Hk) as (x & Hx & ->).
    simpl.
    pose proof (focus_tree x s) as (Hp1 & Hc1 & _).
    pose proof (focusPreviousItem_lands (focus x s) parent
                  (if decide (S k < length (elementChildren (page s) parent))
                   then S k else 0)) as Hback.
    rewrite Hp1, Hc1, focus_activeElement in Hback.
    destruct (Hback (Hparents x (list_elem_of_lookup_2 _ _ _ Hx)) Hnd Hx)
      as (y & Hy & ->).
    assert (y = activeElement (page s)) as ->.
    { match type of Hy with
      | _ !! ?j = _ =>
          assert (j = k) as Hj by (repeat case_decide; lia); rewrite Hj in Hy
      end.
      congruence. }
    by rewrite (focus_there_and_back s _ k _ x Hbuttons Hnd Hk Hx Hactive).
  - destruct (focusPreviousItem_lands s parent k Hparent Hnd Hk) as (x & Hx & ->).
    simpl.
    pose proof (focus_tree x s) as (Hp1 & Hc1 & _).
    pose proof (focusNextItem_lands (focus x s) parent
                  (if decide (k = 0)
                   then length (elementChildren (page s) parent) - 1
                   else k - 1)) as Hback.
    rewrite Hp1, Hc1, focus_activeElement in Hback.
    destruct (Hback (Hparents x (list_elem_of_lookup_2 _ _ _ Hx)) Hnd Hx)
      as (y & Hy & ->).
    assert (y = activeElement (page s)) as ->.
    { match type of Hy with
      | _ !! ?j = _ =>
          assert (j = k) as Hj by (repeat case_decide; lia); rewrite Hj in Hy
      end.
      congruence. }
    by rewrite (focus_there_and_back s _ k _ x Hbuttons Hnd Hk Hx Hactive).
Qed.

Lemma arrows_undo_each_other_witness :
  andThen (snd (onKeydown (mkKeyboardEvent 39 false) (set_activeTab 1 sample_rendered)))
    (λ s1, snd (onKeydown (mkKeyboardEvent 37 false) s1))
  = Normal (set_activeTab 1 sample_rendered).
Proof.
  refine (proj1 (arrows_undo_each_other (set_activeTab 1 sample_rendered)
                   (mkKeyboardEvent 39 false) (mkKeyboardEvent 37 false) 100 1
                   eq_refl eq_refl _ _ eq_refl eq_refl eq_refl)).
  - intros x Hx. change (x ∈ [1; 2; 3]) in Hx.
    change ((if decide (x ∈ [1; 2; 3]) then Some 100 else None) = Some 100).
    by rewrite decide_True.
  - change (NoDup [1; 2; 3]). apply (bool_decide_unpack _). exact I.
Defined.

(** X13. When the focused element has no parent element, each of the four
    keys ends in a [TypeError] with the state untouched, and the default
    action has been suppressed before the exception. *)
Theorem onKeydown_detached (e : KeyboardEvent) (s : State) :
  parentElement (page s) (activeElement (page s)) = None →
  keyCode e = KEYCODE_RIGHT ∨ keyCode e = KEYCODE_LEFT
  ∨ keyCode e = KEYCODE_HOME ∨ keyCode e = KEYCODE_END →
  onKeydown e s = (preventDefault e, Throw TypeError s).
Proof.
  intros Hnone Hkey. unfold onKeydown.
  assert (Hfirst : focusFirstItem s = Throw TypeError s).
  { unfold focusFirstItem. by rewrite Hnone. }
  assert (Hlast : focusLastItem s = Throw TypeError s).
  { unfold focusLastItem. by rewrite Hnone. }
  assert (Hnext : focusNextItem s = Throw TypeError s).
  { unfold focusNextItem, nextElementSibling. by rewrite Hnone. }
  assert (Hprev : focusPreviousItem s = Throw TypeError s).
  { unfold focusPreviousItem, previousElementSibling. by rewrite Hnone. }
  destruct Hkey as [-> | [-> | [-> | ->]]]; simpl; congruence.
Qed.

Lemma onKeydown_detached_witness :
  onKeydown (mkKeyboardEvent 36 false) (set_activeElement 55 sample_rendered)
  = (preventDefault (mkKeyboardEvent 36 false),
     Throw TypeError (set_activeElement 55 sample_rendered)).
Proof.
  apply onKeydown_detached; [reflexivity | right; right; left; reflexivity].
Defined.

(** Where the four focus helpers can put the focus. *)
Lemma focusFirstItem_target (s : State) :
  let s' := stateOf (focusFirstItem s) in
  s' = s
  ∨ ∃ parent x,
      parentElement (page s) (activeElement (page s)) = Some parent
      ∧ x ∈ elementChildren (page s) parent ∧ s' = focus x s.
Proof.
  unfold focusFirstItem.
  destruct (parentElement (page s) (activeElement (page s))) as [parent|] eqn:Hp;
    [|by left].
  destruct (head (elementChildren (page s) parent)) as [x|] eqn:Hx; [|by left].
  right. exists parent, x. repeat split.
  rewrite head_lookup in Hx. by eapply list_elem_of_lookup_2.
Qed.

Lemma focusLastItem_target (s : State) :
  let s' := stateOf (focusLastItem s) in
  s' = s
  ∨ ∃ parent x,
      parentElement (page s) (activeElement (page s)) = Some parent
      ∧ x ∈ elementChildren (page s) parent ∧ s' = focus x s.
Proof.
  unfold focusLastItem.
  destruct (parentElement (page s) (activeElement (page s))) as [parent|] eqn:Hp;
    [|by left].
  destruct (last (elementChildren (page s) parent)) as [x|] eqn:Hx; [|by left].
  right. exists parent, x. repeat split.
  rewrite last_lookup in Hx. by eapply list_elem_of_lookup_2.
Qed.

(** Where [onKeydown] can put the focus. *)
Lemma onKeydown_target (e : KeyboardEvent) (s : State) :
  let s' := stateOf (snd (onKeydown e s)) in
  keyCode (fst (onKeydown e s)) = keyCode e
  ∧ (s' = s
     ∨ ∃ parent x,
         parentElement (page s) (activeElement (page s)) = Some parent
         ∧ x ∈ elementChildren (page s) parent
         ∧ s' = focus x s).
Proof.
  assert (Hnext :
    stateOf (focusNextItem s) = s
    ∨ ∃ parent x,
        parentElement (page s) (activeElement (page s)) = Some parent
        ∧ x ∈ elementChildren (page s) parent
        ∧ stateOf (focusNextItem s) = focus x s).
  { unfold focusNextItem.
    destruct (nextElementSibling (page s) (activeElement (page s))) as [x|] eqn:Hx;
      [|apply focusFirstItem_target].
    unfold nextElementSibling in Hx.
    destruct (parentElement (page s) (activeElement (page s))) as [parent|];
      [|done].
    destruct (indexOf _ _); [|done].
    right. exists parent, x. repeat split. by eapply list_elem_of_lookup_2. }
  assert (Hprev :
    stateOf (focusPreviousItem s) = s
    ∨ ∃ parent x,
        parentElement (page s) (activeElement (page s)) = Some parent
        ∧ x ∈ elementChildren (page s) parent
        ∧ stateOf (focusPreviousItem s) = focus x s).
  { unfold focusPreviousItem.
    destruct (previousElementSibling (page s) (activeElement (page s))) as [x|] eqn:Hx;
      [|apply focusLastItem_target].
    unfold previousElementSibling in Hx.
    destruct (parentElement (page s) (activeElement (page s))) as [parent|];
      [|done].
    destruct (indexOf _ _) as [[|j]|]; [done | | done].
    right. exists parent, x. repeat split. by eapply list_elem_of_lookup_2. }
  intros s'. subst s'. unfold onKeydown.
  repeat case_match; simpl; (split; [done|]);
    auto using focusFirstItem_target, focusLastItem_target.
Qed.

(** X14. Whatever the key and whatever the document, [onKeydown] writes
    nothing but [document.activeElement], and [activeTab] changes only
    through the [onFocus] that a focus move runs: the result state is the
    given one, or the given one with the focus on an element child [x] of
    the focused element's parent, or, when that is a move, what [onFocus]
    for [x] makes of the latter. The host with the attributes of tabs and
    panels, the listeners and the element tree stay as they were, and the
    event keeps its key code. *)
Theorem onKeydown_frame (e : KeyboardEvent) (s : State) :
  let s' := stateOf (snd (onKeydown e s)) in
  keyCode (fst (onKeydown e s)) = keyCode e
  ∧ host s' = host s
  ∧ windowListeners (page s') = windowListeners (page s)
  ∧ parentElement (page s') = parentElement (page s)
  ∧ elementChildren (page s') = elementChildren (page s)
  ∧ (s' = s
     ∨ ∃ parent x,
         parentElement (page s) (activeElement (page s)) = Some parent
         ∧ x ∈ elementChildren (page s) parent
         ∧ (s' = set_activeElement x s
            ∨ (x ≠ activeElement (page s)
               ∧ s' = onFocus (tabButtons (host s)) x (set_activeElement x s)))).
Proof.
  intros s'. subst s'.
  destruct (onKeydown_target e s) as [Hkey [-> | (parent & x & Hp & Hx & ->)]].
  - repeat split; auto.
  - pose proof (focus_tree x s) as (? & ? & ?).
    split; [done|]. split; [apply focus_host|]. do 3 (split; [done|]).
    right. exists parent, x. do 2 (split; [done|]). apply focus_cases.
Qed.

(** ** Focus-driven activation *)

Lemma indexOf_Some (x : Node) (l : list Node) :
  ∀ k, indexOf x l = Some k → l !! k = Some x.
Proof.
  induction l as [|y l IH]; intros k; simpl; [done|].
  case_decide as Hy.
  - intros [= <-]. by subst.
  - destruct (indexOf x l) as [j|]; simpl; [|done].
    intros [= <-]. by apply IH.
Qed.

Lemma indexOf_None (x : Node) (l : list Node) :
  indexOf x l = None ↔ x ∉ l.
Proof.
  induction l as [|y l IH]; simpl.
  - split; [intros _; apply not_elem_of_nil | done].
  - rewrite not_elem_of_cons. case_decide as Hy.
    + split; [done | intros [Hne _]; by subst].
    + destruct (indexOf x l) as [j|]; simpl.
      * split; [done|]. intros [_ Hnot]. by apply IH in Hnot.
      * split; [|done]. intros _. split; [done | by apply IH].
Qed.

(** X15. [onFocus] changes [activeTab] only, and always to a value from
    -1 to [count - 1]: the position of the event's target among the tabs,
    or -1 exactly when the target is not one of them. After a -1 the
    presentation sync does nothing. *)
Theorem onFocus_spec (tabNodes : list Node) (currentTarget : Node) (s : State) :
  let s' := onFocus tabNodes currentTarget s in
  let a := activeTab (this s') in
  (-1 ≤ a < Z.of_nat (length tabNodes))%Z
  ∧ (a = (-1)%Z ↔ currentTarget ∉ tabNodes)
  ∧ ((0 ≤ a)%Z → tabNodes !! Z.to_nat a = Some currentTarget)
  ∧ s' = set_activeTab a s
  ∧ (currentTarget ∉ tabNodes → _changeTab s' = Normal s').
Proof.
  intros s' a. subst s' a. unfold onFocus.
  destruct (indexOf currentTarget tabNodes) as [k|] eqn:Hk; simpl.
  - pose proof (indexOf_Some _ _ _ Hk) as Hin.
    pose proof (lookup_lt_Some _ _ _ Hin) as Hlt.
    split; [lia|]. split; [|split; [|split]].
    + split; [lia|]. intros Hnot. apply indexOf_None in Hnot. congruence.
    + intros _. by rewrite Nat2Z.id.
    + done.
    + intros Hnot. apply indexOf_None in Hnot. congruence.
  - apply indexOf_None in Hk.
    split; [lia|]. split; [done|]. split; [lia|]. split; [done|].
    intros _. unfold _changeTab. simpl. done.
Qed.

Lemma onFocus_spec_witness :
  _changeTab (onFocus [1; 2; 3] 7 sample_rendered)
  = Normal (onFocus [1; 2; 3] 7 sample_rendered).
Proof.
  apply (proj2 (proj2 (proj2 (proj2 (onFocus_spec [1; 2; 3] 7 sample_rendered))))).
  apply (bool_decide_unpack _). exact I.
Defined.

(** X16. Keyboard navigation activates with wrap-around. When the tab
    list's element children are the tabs and the focus is on tab [k], a
    Right, Left, Home or End key moves the focus, and [onFocus] for the
    element that then has the focus sets [activeTab] to [k + 1] (0 from
    the last tab), [k - 1] (the last tab from 0), 0 and [count - 1]. *)
Theorem keydown_then_onFocus (s : State) (e : KeyboardEvent)
    (parent : Node) (k : nat) :
  let item := activeElement (page s) in
  let tabNodes := elementChildren (page s) parent in
  let n := length tabNodes in
  let activated (j : nat) :=
    ∃ s1, snd (onKeydown e s) = Normal s1
          ∧ activeTab (this (onFocus tabNodes (activeElement (page s1)) s1))
            = Z.of_nat j in
  parentElement (page s) item = Some parent →
  NoDup tabNodes →
  tabNodes !! k = Some item →
  (keyCode e = KEYCODE_RIGHT → activated (if decide (S k < n) then S k else 0))
  ∧ (keyCode e = KEYCODE_LEFT → activated (if decide (k = 0) then n - 1 else k - 1))
  ∧ (keyCode e = KEYCODE_HOME → activated 0)
  ∧ (keyCode e = KEYCODE_END → activated (n - 1)).
Proof.
  intros item tabNodes n activated Hparent Hnd Hk.
  subst item tabNodes n activated. unfold onKeydown.
  repeat split; intros ->; simpl.
  - destruct (focusNextItem_lands s parent k Hparent Hnd Hk) as (x & Hx & ->).
    eexists. split; [reflexivity|]. unfold onFocus. simpl.
    by rewrite focus_activeElement, (indexOf_lookup _ _ _ Hnd Hx).
  - destruct (focusPreviousItem_lands s parent k Hparent Hnd Hk) as (x & Hx & ->).
    eexists. split; [reflexivity|]. unfold onFocus. simpl.
    by rewrite focus_activeElement, (indexOf_lookup _ _ _ Hnd Hx).
  - destruct (focusFirstItem_lands s parent k Hparent Hk) as (x & Hx & ->).
    eexists. split; [reflexivity|]. unfold onFocus. simpl.
    by rewrite focus_activeElement, (indexOf_lookup _ _ _ Hnd Hx).
  - destruct (focusLastItem_lands s parent k Hparent Hk) as (x & Hx & ->).
    eexists. split; [reflexivity|]. unfold onFocus. simpl.
    by rewrite focus_activeElement, (indexOf_lookup _ _ _ Hnd Hx).
Qed.

Lemma keydown_then_onFocus_witness :
  ∃ s1, snd (onKeydown (mkKeyboardEvent 39 false) (set_activeElement 3 sample_rendered))
        = Normal s1
        ∧ activeTab (this (onFocus [1; 2; 3] (activeElement (page s1)) s1)) = 0%Z.
Proof.
  destruct (keydown_then_onFocus (set_activeElement 3 sample_rendered)
              (mkKeyboardEvent 39 false) 100 2) as (Hright & _).
  - reflexivity.
  - change (NoDup [1; 2; 3]). apply (bool_decide_unpack _). exact I.
  - reflexivity.
  - apply Hright. reflexivity.
Defined.

(** ** More on the derivation *)

Lemma numberToString_inj (n m : N) : numberToString n = numberToString m → n = m.
Proof.
  unfold numberToString. intros Heq.
  apply (f_equal NilEmpty.uint_of_string) in Heq.
  rewrite !NilEmpty.usu in Heq. injection Heq as Heq.
  apply (f_equal N.of_uint) in Heq. by rewrite !DecimalN.Unsigned.of_to in Heq.
Qed.

Lemma numberToString_nonempty (n : N) : numberToString n ≠ "".
Proof.
  intros Heq. assert (n = 0%N) as ->; [|discriminate Heq].
  unfold numberToString in Heq.
  apply (f_equal NilEmpty.uint_of_string) in Heq.
  rewrite NilEmpty.usu in Heq. simpl in Heq. injection Heq as Heq.
  apply (f_equal N.of_uint) in Heq. by rewrite DecimalN.Unsigned.of_to in Heq.
Qed.

Lemma tab_id_index (salt : string) (i j : N) c1 c2 :
  tab_id (tabTemplate salt i c1) = tab_id (tabTemplate salt j c2) → i = j.
Proof.
  simpl. intros Heq%id_prefix_inj.
  apply split_last_dash in Heq as [_ Heq];
    auto using digitsOnly_dashFree, digitsOnly_numberToString, numberToString_inj.
Qed.

Lemma panel_id_index (salt : string) (i j : N) c1 c2 :
  panel_id (panelTemplate salt i c1) = panel_id (panelTemplate salt j c2) → i = j.
Proof.
  simpl. intros Heq%id_prefix_inj.
  change "-panel" with ("-" +:+ "panel") in Heq.
  rewrite <- !(string_app_assoc _ "-" (numberToString _ +:+ _)) in Heq.
  rewrite <- !(string_app_assoc _ (numberToString _) _) in Heq.
  apply split_last_dash in Heq as [Heq _]; [|done..].
  rewrite !string_app_assoc in Heq.
  apply split_last_dash in Heq as [_ Heq];
    auto using digitsOnly_dashFree, digitsOnly_numberToString, numberToString_inj.
Qed.

(** X17. Within one instance all ids are different: no two tabs, no two
    panels and no tab and panel of a derivation share an id, for any salt
    and any children. *)
Theorem derive_ids_distinct (salt : string) (cs : list Child) :
  NoDup (idsOf (derive salt cs)).
Proof.
  unfold idsOf. rewrite derive_spec. simpl.
  apply NoDup_app. split; [|split].
  - apply NoDup_alt. intros i j x.
    rewrite !list_lookup_fmap, !list_lookup_imap.
    destruct (cs !! i) as [ci|], (cs !! j) as [cj|]; simpl; try done.
    intros Hi Hj.
    assert (tab_id (tabTemplate salt (N.of_nat (S i)) (child_data_label ci))
            = tab_id (tabTemplate salt (N.of_nat (S j)) (child_data_label cj)))
      as Heq by (apply (inj Some); etrans; [exact Hi | symmetry; exact Hj]).
    apply tab_id_index in Heq. lia.
  - intros x (t & -> & Ht)%list_elem_of_fmap (p & Heq & Hp)%list_elem_of_fmap.
    apply elem_of_lookup_imap in Ht as (i & ci & -> & _).
    apply elem_of_lookup_imap in Hp as (j & cj & -> & _).
    by apply tab_id_not_panel_id in Heq.
  - apply NoDup_alt. intros i j x.
    rewrite !list_lookup_fmap, !list_lookup_imap.
    destruct (cs !! i) as [ci|], (cs !! j) as [cj|]; simpl; try done.
    intros Hi Hj.
    assert (panel_id (panelTemplate salt (N.of_nat (S i)) ci)
            = panel_id (panelTemplate salt (N.of_nat (S j)) cj))
      as Heq by (apply (inj Some); etrans; [exact Hi | symmetry; exact Hj]).
    apply panel_id_index in Heq. lia.
Qed.

(** X18. No tab is rendered with an empty label: the text a tab shows is
    never the empty string, whatever [data-label] the child has or lacks. *)
Theorem tab_text_nonempty (salt : string) (i : N) (tabLabel : option string) :
  labelToString (tab_text (tabTemplate salt i tabLabel)) ≠ ""
  ∧ tab_data_label (tabTemplate salt i tabLabel) ≠ "tab, ".
Proof.
  assert (Htext : labelToString (resolveLabel i tabLabel) ≠ "").
  { unfold resolveLabel. destruct tabLabel as [s|]; simpl;
      [|apply numberToString_nonempty].
    repeat case_match; simpl; try apply numberToString_nonempty; try done.
    by apply String.eqb_neq. }
  split; [done|]. simpl. intros Heq.
  apply Htext. by apply (inj (String.append "tab, ")).
Qed.

(** X19. The cross references of a derivation are unambiguous: the
    [aria-controls] of the tab at one position is the id of the panel at
    the same position and of no other panel, and the [aria-labelledby] of
    a panel is the id of the tab at its position and of no other tab. *)
Theorem derive_references_unambiguous (salt : string) (cs : list Child)
    (k j : nat) (tab : TabTemplate) (panel : PanelTemplate) :
  snd (derive salt cs) !! k = Some tab →
  fst (derive salt cs) !! j = Some panel →
  (tab_aria_controls tab = panel_id panel ↔ k = j)
  ∧ (panel_aria_labelledby panel = tab_id tab ↔ k = j).
Proof.
  rewrite derive_spec. simpl. rewrite !list_lookup_imap.
  intros (ck & _ & ->)%fmap_Some (cj & _ & ->)%fmap_Some.
  split; split.
  - intros Heq.
    apply (panel_id_index salt (N.of_nat (S k)) (N.of_nat (S j)) ck cj) in Heq. lia.
  - by intros ->.
  - intros Heq.
    apply (tab_id_index salt (N.of_nat (S j)) (N.of_nat (S k))
             (child_data_label cj) (child_data_label ck)) in Heq. lia.
  - by intros ->.
Qed.

Lemma derive_references_unambiguous_witness :
  tab_aria_controls (tabTemplate "k3x" 2 (Some "")) = panel_id (panelTemplate "k3x" 2 (mkChild 11 (Some "")))
  ↔ 1 = 1.
Proof.
  apply (derive_references_unambiguous "k3x" sample_children 1 1
           (tabTemplate "k3x" 2 (Some "")) (panelTemplate "k3x" 2 (mkChild 11 (Some "")))
           eq_refl eq_refl).
Defined.
